(** * Arrakis MCP server: the tool adapter of [arrakis_mcp_server.py]

    The adapter registers eleven functions with FastMCP.  Each one reads the
    module global [sandbox_manager], forwards to the py_arrakis client and
    turns the result, or the exception, into a string.

    The embedding follows the Python text:
    - a Python call either returns a value or raises, so a computation is a
      function from the world to an [outcome] and the next world;
    - the world is the module global [sandbox_manager] together with the
      trace of what the adapter did to the outside: the [Sandbox] objects it
      constructed and the client methods it invoked;
    - the sandbox service is external: it is a parameter [service] that
      answers a method call, given everything that happened before it;
    - [json.dumps(., indent=2)] belongs to the Python standard library and
      is a parameter [json_dumps] as well. *)

From Stdlib Require Import ZArith List.
From stdpp Require Import base gmap strings list pretty.
Import ListNotations.

Local Open Scope string_scope.
Local Open Scope list_scope.
Set Warnings "-register-all".

(** ** Data *)

(** An instance of Python's [Exception]: its class name and what [str(e)]
    gives.  This is what a client call raises when it fails (connection
    errors, HTTP errors, [KeyError], [AttributeError], ...) and what the
    clause [except Exception] of the registered functions matches.  The
    interpreter's own signals outside that class ([KeyboardInterrupt],
    [SystemExit]) are not failures of a call: [__main__] handles them, and
    they are not part of the model. *)
Record Exception := mkException { exc_type : string; exc_str : string }.

(** The outcome of evaluating a Python expression or calling a function. *)
Inductive outcome (A : Type) : Type :=
| Return (a : A)
| Raise (e : Exception).
Arguments Return {A} a.
Arguments Raise {A} e.

(** Decoded JSON, as [response.json()] hands it to the caller (numbers are
    kept to the integers). *)
Inductive json : Type :=
| JNull
| JBool (b : bool)
| JInt (z : Z)
| JStr (s : string)
| JArr (items : list json)
| JObj (members : list (string * json)).

(** py_arrakis objects.  [SandboxManager(url)] keeps an API client in
    [_api]; [Sandbox(api, name)] keeps the client and the VM name. *)
Record APIClient := mkAPIClient { base_url : string }.
Record SandboxManager := mkSandboxManager { _api : APIClient }.
Record Sandbox := mkSandbox { sb_api : APIClient; name : string }.

(** The client methods the adapter calls, with their receiver and their
    arguments.  [SM_] are methods of [SandboxManager], [SB_] of [Sandbox]. *)
Inductive call : Type :=
| SM_list_all (m : SandboxManager)
| SM_start_sandbox (m : SandboxManager) (vm_name : string)
| SM_restore (m : SandboxManager) (vm_name snapshot_id : string)
| SM_destroy_all (m : SandboxManager)
| SB_info (sb : Sandbox)
| SB_snapshot (sb : Sandbox) (snapshot_id : string)
| SB_run_cmd (sb : Sandbox) (cmd : string)
| SB_upload_files (sb : Sandbox) (files : list (gmap string string))
| SB_download_files (sb : Sandbox) (paths : list string)
| SB_destroy (sb : Sandbox)
| SB_update_state (sb : Sandbox) (status : string).

(** What each method returns when it does not raise. *)
Definition result_type (c : call) : Type :=
  match c with
  | SM_list_all _ => list Sandbox
  | SM_start_sandbox _ _ | SM_restore _ _ _ => Sandbox
  | SB_info _ => json
  | SB_snapshot _ _ => string
  | SB_run_cmd _ _ => gmap string string
  | SB_download_files _ _ => list (gmap string string)
  | SM_destroy_all _ | SB_upload_files _ _ | SB_destroy _
  | SB_update_state _ _ => unit
  end.

(** The [Sandbox] a method is called on, if it is a per-VM method. *)
Definition receiver (c : call) : option Sandbox :=
  match c with
  | SB_info sb | SB_snapshot sb _ | SB_run_cmd sb _ | SB_upload_files sb _
  | SB_download_files sb _ | SB_destroy sb | SB_update_state sb _ => Some sb
  | _ => None
  end.

(** What the adapter does that is visible outside a function body. *)
Inductive event : Type :=
| Constructed (sb : Sandbox)
| Invoked (c : call) (raised : option Exception).

(** The module global [sandbox_manager] ([None] until [__main__] assigns it)
    and the trace so far, oldest event first. *)
Record World := mkWorld {
  sandbox_manager : option SandboxManager;
  trace : list event
}.

(** The sandbox service behind the client: given what happened so far, it
    answers a call with a value of the method's type or with an exception. *)
Definition Service : Type :=
  list event -> forall c : call, outcome (result_type c).

Definition raised_of {A} (r : outcome A) : option Exception :=
  match r with Return _ => None | Raise e => Some e end.

(** The line feed of the f-strings. *)
Definition LF : string := String (Ascii.ascii_of_nat 10) EmptyString.

(** ** Computations *)

Definition M (A : Type) : Type := World -> outcome A * World.

Definition ret {A} (a : A) : M A := fun w => (Return a, w).

Definition bind {A B} (m : M A) (f : A -> M B) : M B :=
  fun w => match m w with
           | (Return a, w') => f a w'
           | (Raise e, w') => (Raise e, w')
           end.

Notation "x <- m ;; f" := (bind m (fun x => f))
  (at level 100, m at next level, right associativity).

(** [try: body except Exception as e: handler e] *)
Definition try_except {A} (body : M A) (handler : Exception -> M A) : M A :=
  fun w => match body w with
           | (Return a, w') => (Return a, w')
           | (Raise e, w') => handler e w'
           end.

Fixpoint mapM {A B} (f : A -> M B) (l : list A) : M (list B) :=
  match l with
  | [] => ret []
  | x :: l' => y <- f x ;; ys <- mapM f l' ;; ret (y :: ys)
  end.

Definition record (ev : event) (w : World) : World :=
  {| sandbox_manager := sandbox_manager w; trace := trace w ++ [ev] |}.

(** [sandbox_manager.<attr>]: the global is looked up each time; on [None]
    the attribute access raises [AttributeError]. *)
Definition sandbox_manager_attr (attr : string) : M SandboxManager :=
  fun w => match sandbox_manager w with
           | Some m => (Return m, w)
           | None =>
               (Raise (mkException "AttributeError"
                         ("'NoneType' object has no attribute '" +:+ attr +:+ "'")),
                w)
           end.

(** [Sandbox(api, vm_name)]: the constructor stores its arguments. *)
Definition new_Sandbox (api : APIClient) (vm_name : string) : M Sandbox :=
  fun w => let sb := mkSandbox api vm_name in (Return sb, record (Constructed sb) w).

Section Adapter.

Variable service : Service.

(** [json.dumps(v, indent=2)]. *)
Variable json_dumps : json -> string.

Definition invoke (c : call) : M (result_type c) :=
  fun w => let r := service (trace w) c in
           (r, record (Invoked c (raised_of r)) w).

(** ** The registered functions *)

Definition get_vms : M string :=
  try_except
    (m <- sandbox_manager_attr "list_all" ;;
     vms <- invoke (SM_list_all m) ;;
     vm_info <- mapM (fun vm => invoke (SB_info vm)) vms ;;
     ret (json_dumps (JArr vm_info)))
    (fun e => ret ("Error listing VMs: " +:+ exc_str e)).

Definition get_vm_info (vm_name : string) : M string :=
  try_except
    (m <- sandbox_manager_attr "_api" ;;
     sandbox <- new_Sandbox (_api m) vm_name ;;
     i <- invoke (SB_info sandbox) ;;
     ret (json_dumps i))
    (fun e => ret ("Error retrieving VM information: " +:+ exc_str e)).

Definition start_sandbox (name : string) : M string :=
  try_except
    (m <- sandbox_manager_attr "start_sandbox" ;;
     sandbox <- invoke (SM_start_sandbox m name) ;;
     i <- invoke (SB_info sandbox) ;;
     ret (json_dumps i))
    (fun e => ret ("Error starting sandbox: " +:+ exc_str e)).

Definition restore_snapshot (vm_name snapshot_id : string) : M string :=
  try_except
    (m <- sandbox_manager_attr "restore" ;;
     sandbox <- invoke (SM_restore m vm_name snapshot_id) ;;
     i <- invoke (SB_info sandbox) ;;
     ret (json_dumps i))
    (fun e => ret ("Error restoring snapshot: " +:+ exc_str e)).

Definition snapshot (vm_name snapshot_id : string) : M string :=
  try_except
    (m <- sandbox_manager_attr "_api" ;;
     sandbox <- new_Sandbox (_api m) vm_name ;;
     result <- invoke (SB_snapshot sandbox snapshot_id) ;;
     ret ("Created snapshot with ID: " +:+ result))
    (fun e => ret ("Error creating snapshot: " +:+ exc_str e)).

(** [d.get(key, default)], [key in d] and [d[key]] on a [dict] of strings;
    [d[key]] raises [KeyError] when the key is missing. *)
Definition get (d : gmap string string) (key default : string) : string :=
  match d !! key with Some v => v | None => default end.

Definition contains (key : string) (d : gmap string string) : bool :=
  match d !! key with Some _ => true | None => false end.

Definition getitem (d : gmap string string) (key : string) : M string :=
  fun w => match d !! key with
           | Some v => (Return v, w)
           | None => (Raise (mkException "KeyError" ("'" +:+ key +:+ "'")), w)
           end.

(** [l[i]] on a list; raises [IndexError] out of range. *)
Definition list_getitem {A} (l : list A) (i : nat) : M A :=
  fun w => match l !! i with
           | Some x => (Return x, w)
           | None => (Raise (mkException "IndexError" "list index out of range"), w)
           end.

(** Truth value of a [str] and of a list: non-empty. *)
Definition truthy (s : string) : bool :=
  match s with EmptyString => false | String _ _ => true end.

Definition list_truthy {A} (l : list A) : bool :=
  match l with [] => false | _ :: _ => true end.

Definition run_command (vm_name cmd : string) : M string :=
  try_except
    (m <- sandbox_manager_attr "_api" ;;
     sandbox <- new_Sandbox (_api m) vm_name ;;
     result <- invoke (SB_run_cmd sandbox cmd) ;;
     let output := get result "output" "" in
     let error := get result "error" "" in
     if truthy error
     then ret ("Command output:" +:+ LF +:+ output +:+ LF +:+ LF +:+ "Error:" +:+ LF +:+ error)
     else ret ("Command output:" +:+ LF +:+ output))
    (fun e => ret ("Error running command: " +:+ exc_str e)).

Definition upload_file (vm_name path content : string) : M string :=
  try_except
    (m <- sandbox_manager_attr "_api" ;;
     sandbox <- new_Sandbox (_api m) vm_name ;;
     _ <- invoke (SB_upload_files sandbox
                    [ <["content" := content]> (<["path" := path]> ∅) ]) ;;
     ret ("Successfully uploaded file to " +:+ path))
    (fun e => ret ("Error uploading file: " +:+ exc_str e)).

Definition download_file (vm_name path : string) : M string :=
  try_except
    (m <- sandbox_manager_attr "_api" ;;
     sandbox <- new_Sandbox (_api m) vm_name ;;
     result <- invoke (SB_download_files sandbox [path]) ;;
     if negb (list_truthy result)
     then ret ("No file found at path: " +:+ path)
     else
       file_data <- list_getitem result 0 ;;
       has_error <- (if contains "error" file_data
                     then err <- getitem file_data "error" ;; ret (truthy err)
                     else ret false) ;;
       if (has_error : bool)
       then err <- getitem file_data "error" ;;
            ret ("Error downloading file: " +:+ err)
       else ret ("File content:" +:+ LF +:+ get file_data "content" ""))
    (fun e => ret ("Error downloading file: " +:+ exc_str e)).

Definition destroy_vm (vm_name : string) : M string :=
  try_except
    (m <- sandbox_manager_attr "_api" ;;
     sandbox <- new_Sandbox (_api m) vm_name ;;
     _ <- invoke (SB_destroy sandbox) ;;
     ret ("Successfully destroyed VM " +:+ vm_name))
    (fun e => ret ("Error destroying VM: " +:+ exc_str e)).

Definition destroy_all_vms : M string :=
  try_except
    (m <- sandbox_manager_attr "destroy_all" ;;
     _ <- invoke (SM_destroy_all m) ;;
     ret "Successfully destroyed all VMs")
    (fun e => ret ("Error destroying VMs: " +:+ exc_str e)).

Definition update_vm_state (vm_name status : string) : M string :=
  try_except
    (m <- sandbox_manager_attr "_api" ;;
     sandbox <- new_Sandbox (_api m) vm_name ;;
     _ <- invoke (SB_update_state sandbox status) ;;
     ret ("Successfully updated VM " +:+ vm_name +:+ " state to " +:+ status))
    (fun e => ret ("Error updating VM state: " +:+ exc_str e)).

(** ** The protocol surface

    FastMCP keeps the registered functions by name and calls the one a
    request names with the request's arguments. *)
Inductive operation : Type :=
| Op_get_vms
| Op_get_vm_info (vm_name : string)
| Op_start_sandbox (name : string)
| Op_restore_snapshot (vm_name snapshot_id : string)
| Op_snapshot (vm_name snapshot_id : string)
| Op_run_command (vm_name cmd : string)
| Op_upload_file (vm_name path content : string)
| Op_download_file (vm_name path : string)
| Op_destroy_vm (vm_name : string)
| Op_destroy_all_vms
| Op_update_vm_state (vm_name status : string).

Definition dispatch (op : operation) : M string :=
  match op with
  | Op_get_vms => get_vms
  | Op_get_vm_info vm_name => get_vm_info vm_name
  | Op_start_sandbox name => start_sandbox name
  | Op_restore_snapshot vm_name snapshot_id => restore_snapshot vm_name snapshot_id
  | Op_snapshot vm_name snapshot_id => snapshot vm_name snapshot_id
  | Op_run_command vm_name cmd => run_command vm_name cmd
  | Op_upload_file vm_name path content => upload_file vm_name path content
  | Op_download_file vm_name path => download_file vm_name path
  | Op_destroy_vm vm_name => destroy_vm vm_name
  | Op_destroy_all_vms => destroy_all_vms
  | Op_update_vm_state vm_name status => update_vm_state vm_name status
  end.

End Adapter.

(** The label each function puts in front of [str(e)] in its handler. *)
Definition error_prefix (op : operation) : string :=
  match op with
  | Op_get_vms => "Error listing VMs: "
  | Op_get_vm_info _ => "Error retrieving VM information: "
  | Op_start_sandbox _ => "Error starting sandbox: "
  | Op_restore_snapshot _ _ => "Error restoring snapshot: "
  | Op_snapshot _ _ => "Error creating snapshot: "
  | Op_run_command _ _ => "Error running command: "
  | Op_upload_file _ _ _ => "Error uploading file: "
  | Op_download_file _ _ => "Error downloading file: "
  | Op_destroy_vm _ => "Error destroying VM: "
  | Op_destroy_all_vms => "Error destroying VMs: "
  | Op_update_vm_state _ _ => "Error updating VM state: "
  end.

(** The per-VM functions and the name they are given. *)
Definition vm_name_of (op : operation) : option string :=
  match op with
  | Op_get_vm_info vm_name | Op_snapshot vm_name _ | Op_run_command vm_name _
  | Op_upload_file vm_name _ _ | Op_download_file vm_name _
  | Op_destroy_vm vm_name | Op_update_vm_state vm_name _ => Some vm_name
  | _ => None
  end.

(** ** Instances used in the examples

    A manager as [__main__] builds it from the default URL, a JSON printer,
    and three services: one that is unreachable, one that answers
    every call, and one that rejects states other than the documented two. *)

Definition default_manager : SandboxManager :=
  mkSandboxManager (mkAPIClient "http://localhost:7000").

Definition started : World :=
  {| sandbox_manager := Some default_manager; trace := [] |}.

(** A printer for [json.dumps(v, indent=2)] on this fragment of JSON, each
    character of a string read as a code point below 256: two spaces per
    level, [", "] never used, [": "] after a key, [[]] and [{}] for the
    empty containers, and the [ensure_ascii] escapes. *)
Definition DQ : string := String (Ascii.ascii_of_nat 34) EmptyString.
Definition BS : string := String (Ascii.ascii_of_nat 92) EmptyString.

Definition hex_digit (n : nat) : string :=
  String.substring n 1 "0123456789abcdef".

Definition escape_char (a : Ascii.ascii) : string :=
  let n := Ascii.nat_of_ascii a in
  if Nat.eqb n 34 then BS +:+ DQ
  else if Nat.eqb n 92 then BS +:+ BS
  else if Nat.eqb n 10 then BS +:+ "n"
  else if Nat.eqb n 13 then BS +:+ "r"
  else if Nat.eqb n 9 then BS +:+ "t"
  else if Nat.eqb n 8 then BS +:+ "b"
  else if Nat.eqb n 12 then BS +:+ "f"
  else if Nat.leb 32 n && Nat.leb n 126 then String a EmptyString
  else BS +:+ "u00" +:+ hex_digit (n / 16) +:+ hex_digit (n mod 16).

Fixpoint escape (s : string) : string :=
  match s with
  | EmptyString => EmptyString
  | String a s' => escape_char a +:+ escape s'
  end.

Definition quoted (s : string) : string := DQ +:+ escape s +:+ DQ.

Fixpoint spaces (n : nat) : string :=
  match n with O => "" | S n' => " " +:+ spaces n' end.

Definition block (opening closing : string) (level : nat) (items : list string)
  : string :=
  match items with
  | [] => opening +:+ closing
  | _ :: _ =>
      opening +:+ LF +:+ spaces (2 * S level)
      +:+ String.concat ("," +:+ LF +:+ spaces (2 * S level)) items
      +:+ LF +:+ spaces (2 * level) +:+ closing
  end.

Fixpoint dumps_at (level : nat) (v : json) : string :=
  match v with
  | JNull => "null"
  | JBool true => "true"
  | JBool false => "false"
  | JInt z => pretty z
  | JStr s => quoted s
  | JArr items => block "[" "]" level (map (dumps_at (S level)) items)
  | JObj members =>
      block "{" "}" level
        (map (fun kv => quoted (fst kv) +:+ ": " +:+ dumps_at (S level) (snd kv))
             members)
  end.

Definition dumps_indent2 (v : json) : string := dumps_at 0 v.

Definition ConnectionError : Exception :=
  mkException "ConnectionError" "connection refused".

Definition unreachable : Service := fun t c => Raise ConnectionError.

Definition demo_service : Service := fun t c =>
  match c return outcome (result_type c) with
  | SM_list_all m => Return [mkSandbox (_api m) "vm1"; mkSandbox (_api m) "vm2"]
  | SM_start_sandbox m vm_name => Return (mkSandbox (_api m) vm_name)
  | SM_restore m vm_name _ => Return (mkSandbox (_api m) vm_name)
  | SM_destroy_all _ => Return tt
  | SB_info sb => Return (JObj [("name", JStr (name sb)); ("status", JStr "RUNNING")])
  | SB_snapshot _ snapshot_id =>
      Return (if truthy snapshot_id then snapshot_id else "snap-0001")
  | SB_run_cmd _ cmd =>
      if String.eqb cmd "ls /nope"
      then Return (<["error" := "ls: /nope: No such file or directory"]> ∅)
      else Return (<["output" := "ok"]> ∅)
  | SB_upload_files _ _ => Return tt
  | SB_download_files _ paths =>
      match paths with
      | ["/etc/hostname"] => Return [ <["content" := "vm1"]> (<["path" := "/etc/hostname"]> ∅) ]
      | ["/root/secret"] => Return [ <["error" := "permission denied"]> (<["path" := "/root/secret"]> ∅) ]
      | _ => Return []
      end
  | SB_destroy _ => Return tt
  | SB_update_state _ status =>
      if String.eqb status "stopped" || String.eqb status "paused"
      then Return tt
      else Raise (mkException "HTTPError" ("400 Client Error: invalid status " +:+ status))
  end.

(** A service that starts VMs but cannot report on them. *)
Definition mute_service : Service := fun t c =>
  match c as c0 return outcome (result_type c0) -> outcome (result_type c0) with
  | SB_info _ => fun _ => Raise (mkException "HTTPError" "500 Server Error")
  | _ => fun answer => answer
  end (demo_service t c).

(** A service whose command prints what looks like an error report. *)
Definition echo_service : Service := fun t c =>
  match c as c0 return outcome (result_type c0) -> outcome (result_type c0) with
  | SB_run_cmd _ _ =>
      fun _ => Return (<["output" := "ok" +:+ LF +:+ LF +:+ "Error:" +:+ LF +:+ "boom"]> ∅)
  | _ => fun answer => answer
  end (demo_service t c).

Definition failing_service : Service := fun t c =>
  match c as c0 return outcome (result_type c0) -> outcome (result_type c0) with
  | SB_run_cmd _ _ =>
      fun _ => Return (<["error" := "boom"]> (<["output" := "ok"]> ∅))
  | SB_download_files _ _ =>
      fun _ => Raise (mkException "HTTPError" "permission denied")
  | _ => fun answer => answer
  end (demo_service t c).

(** ** Vocabulary of the statements *)

(** A computation is [tidy] when it leaves the global alone, only appends to
    the trace, and, if one of the calls it made raised, raises that same
    exception itself. *)
Definition tidy {A} (m : M A) : Prop :=
  forall w, exists new,
    snd (m w) = {| sandbox_manager := sandbox_manager w; trace := trace w ++ new |} /\
    forall c e, In (Invoked c (Some e)) new -> fst (m w) = Raise e.

(** A computation is [quiet] when it does not touch the world. *)
Definition quiet {A} (m : M A) : Prop := forall w, snd (m w) = w.

(** The events a run added: what follows the old trace in the new one. *)
Definition new_events (w w' : World) : list event :=
  drop (length (trace w)) (trace w').

(** [s] occurs in [t]. *)
Definition substring_of (s t : string) : Prop :=
  exists before after, t = before +:+ s +:+ after.

(** What [download_file] makes of the first record of a non-empty answer:
    the two branches after [file_data = result[0]], written as one
    expression ([download_file_run] proves it is what the code computes). *)
Definition first_record_report (file_data : gmap string string) : string :=
  match file_data !! "error" with
  | Some (String a err) => "Error downloading file: " +:+ String a err
  | _ => "File content:" +:+ LF +:+ get file_data "content" ""
  end.

(** The [info()] calls of the list comprehension [[vm.info() for vm in
    vms]], all answered: from trace [t], the VMs [vms] give the records
    [infos] and leave the trace [t']. *)
Inductive info_calls (service : Service) :
  list event -> list Sandbox -> list json -> list event -> Prop :=
| info_calls_nil t : info_calls service t [] [] t
| info_calls_cons t vm vms i infos t' :
    service t (SB_info vm) = Return i ->
    info_calls service (t ++ [Invoked (SB_info vm) None]) vms infos t' ->
    info_calls service t (vm :: vms) (i :: infos) t'.

(** ** Vocabulary of the further properties *)

(** An event that is not a call that raised. *)
Definition succeeded (ev : event) : Prop :=
  match ev with
  | Invoked _ (Some _) => False
  | _ => True
  end.

(** The call an event stands for, if it is one. *)
Definition called (ev : event) : option call :=
  match ev with
  | Invoked c _ => Some c
  | Constructed _ => None
  end.

(** The attribute of [sandbox_manager] a function reads first. *)
Definition first_attr (op : operation) : string :=
  match op with
  | Op_get_vms => "list_all"
  | Op_start_sandbox _ => "start_sandbox"
  | Op_restore_snapshot _ _ => "restore"
  | Op_destroy_all_vms => "destroy_all"
  | _ => "_api"
  end.

(** The method call a per-VM function makes on its handle [sb]. *)
Definition per_vm_call (op : operation) (sb : Sandbox) : option call :=
  match op with
  | Op_get_vm_info _ => Some (SB_info sb)
  | Op_snapshot _ snapshot_id => Some (SB_snapshot sb snapshot_id)
  | Op_run_command _ cmd => Some (SB_run_cmd sb cmd)
  | Op_upload_file _ path content =>
      Some (SB_upload_files sb [ <["content" := content]> (<["path" := path]> ∅) ])
  | Op_download_file _ path => Some (SB_download_files sb [path])
  | Op_destroy_vm _ => Some (SB_destroy sb)
  | Op_update_vm_state _ status => Some (SB_update_state sb status)
  | _ => None
  end.

(** The functions whose answer on success begins with a fixed text of their
    own (the others answer with what [json.dumps] gives, or, for
    [download_file], may report an error of the file itself). *)
Definition fixed_success_text (op : operation) : bool :=
  match op with
  | Op_snapshot _ _ | Op_run_command _ _ | Op_upload_file _ _ _
  | Op_destroy_vm _ | Op_destroy_all_vms | Op_update_vm_state _ _ => true
  | _ => false
  end.

(** A call that raised. *)
Definition failed (ev : event) : bool :=
  match ev with
  | Invoked _ (Some _) => true
  | _ => false
  end.

(** A session: the protocol layer calls the registered functions, one
    request after the other, each from the world the previous one left. *)
Fixpoint serve (service : Service) (json_dumps : json -> string)
    (requests : list operation) (w : World) : list (outcome string) * World :=
  match requests with
  | [] => ([], w)
  | op :: rest =>
      let (response, w1) := dispatch service json_dumps op w in
      let (responses, w2) := serve service json_dumps rest w1 in
      (response :: responses, w2)
  end.

(** A service whose answers do not depend on what happened before. *)
Definition history_free (service : Service) : Prop :=
  forall t t' c, service t c = service t' c.

(** A computation gives the [same_answer] from two worlds that hold the
    same manager. *)
Definition same_answer {A} (m : M A) : Prop :=
  forall w1 w2, sandbox_manager w1 = sandbox_manager w2 ->
    fst (m w1) = fst (m w2) /\
    sandbox_manager (snd (m w1)) = sandbox_manager (snd (m w2)).

(** An event is [made_with] the manager [m] when the handle it constructs
    holds [m]'s client, or the manager method it calls is called on [m]. *)
Definition made_with (m : SandboxManager) (ev : event) : Prop :=
  match ev with
  | Constructed sb => sb_api sb = _api m
  | Invoked (SM_list_all m') _ | Invoked (SM_start_sandbox m' _) _
  | Invoked (SM_restore m' _ _) _ | Invoked (SM_destroy_all m') _ => m' = m
  | Invoked _ _ => True
  end.

Definition uses_manager (m : SandboxManager) {A} (comp : M A) : Prop :=
  forall w, sandbox_manager w = Some m ->
    exists new,
      snd (comp w) = {| sandbox_manager := Some m; trace := trace w ++ new |} /\
      Forall (made_with m) new.

(** The first call a registered function makes once the manager [m] is
    read, and the trace at that moment: a per-VM function has constructed
    its handle by then, the others have done nothing yet. *)
Definition first_call (op : operation) (m : SandboxManager) : call :=
  match op with
  | Op_get_vms => SM_list_all m
  | Op_get_vm_info vm_name => SB_info (mkSandbox (_api m) vm_name)
  | Op_start_sandbox name => SM_start_sandbox m name
  | Op_restore_snapshot vm_name snapshot_id => SM_restore m vm_name snapshot_id
  | Op_snapshot vm_name snapshot_id =>
      SB_snapshot (mkSandbox (_api m) vm_name) snapshot_id
  | Op_run_command vm_name cmd => SB_run_cmd (mkSandbox (_api m) vm_name) cmd
  | Op_upload_file vm_name path content =>
      SB_upload_files (mkSandbox (_api m) vm_name)
        [ <["content" := content]> (<["path" := path]> ∅) ]
  | Op_download_file vm_name path =>
      SB_download_files (mkSandbox (_api m) vm_name) [path]
  | Op_destroy_vm vm_name => SB_destroy (mkSandbox (_api m) vm_name)
  | Op_destroy_all_vms => SM_destroy_all m
  | Op_update_vm_state vm_name status =>
      SB_update_state (mkSandbox (_api m) vm_name) status
  end.

Definition trace_at_first_call (op : operation) (m : SandboxManager)
    (w : World) : list event :=
  match vm_name_of op with
  | Some vm_name => trace w ++ [Constructed (mkSandbox (_api m) vm_name)]
  | None => trace w
  end.

(** A computation [stops_at_failure] when a call that raised is the last
    thing it did, and it raised that exception itself. *)
Definition stops_at_failure {A} (m : M A) : Prop :=
  forall w, exists new,
    snd (m w) = {| sandbox_manager := sandbox_manager w; trace := trace w ++ new |} /\
    (Forall succeeded new \/
     exists pre c e,
       new = pre ++ [Invoked c (Some e)] /\ Forall succeeded pre /\
       fst (m w) = Raise e).

(** ** How computations compose *)

Lemma world_eta w :
  {| sandbox_manager := sandbox_manager w; trace := trace w ++ [] |} = w.
Proof. destruct w; cbn. by rewrite app_nil_r. Qed.

Lemma tidy_ret {A} (a : A) : tidy (ret a).
Proof. intros w. exists []. split; [by rewrite world_eta | intros ? ? []]. Qed.

Lemma tidy_bind {A B} (m : M A) (f : A -> M B) :
  tidy m -> (forall a, tidy (f a)) -> tidy (bind m f).
Proof.
  intros Hm Hf w. unfold bind.
  destruct (Hm w) as (new1 & Hw1 & Hr1).
  destruct (m w) as [[a | e] w1]; cbn in *; subst w1.
  - destruct (Hf a {| sandbox_manager := sandbox_manager w;
                      trace := trace w ++ new1 |}) as (new2 & Hw2 & Hr2).
    cbn in *. exists (new1 ++ new2). split.
    + by rewrite Hw2, app_assoc.
    + intros c e Hin. apply in_app_or in Hin as [Hin | Hin]; [|by apply (Hr2 c)].
      specialize (Hr1 c e Hin). discriminate.
  - exists new1. split; [reflexivity|]. intros c e0 Hin.
    specialize (Hr1 c e0 Hin). congruence.
Qed.

Lemma tidy_sandbox_manager_attr attr : tidy (sandbox_manager_attr attr).
Proof.
  intros w. exists []. unfold sandbox_manager_attr. rewrite world_eta.
  destruct (sandbox_manager w); cbn; (split; [reflexivity | intros ? ? []]).
Qed.

Lemma tidy_new_Sandbox api vm_name : tidy (new_Sandbox api vm_name).
Proof.
  intros w. eexists. split; [reflexivity|].
  intros c e [Hin | []]. discriminate.
Qed.

Lemma tidy_getitem d key : tidy (getitem d key).
Proof.
  intros w. exists []. unfold getitem.
  rewrite world_eta.
  destruct (d !! key); cbn; (split; [reflexivity | intros ? ? []]).
Qed.

Lemma tidy_list_getitem {A} (l : list A) i : tidy (list_getitem l i).
Proof.
  intros w. exists []. unfold list_getitem.
  rewrite world_eta.
  destruct (l !! i); cbn; (split; [reflexivity | intros ? ? []]).
Qed.

Lemma tidy_mapM {A B} (f : A -> M B) (l : list A) :
  (forall a, tidy (f a)) -> tidy (mapM f l).
Proof.
  intros Hf. induction l as [|x l IH]; cbn.
  - apply tidy_ret.
  - apply tidy_bind; [apply Hf|]. intros y.
    apply tidy_bind; [apply IH|]. intros ys. apply tidy_ret.
Qed.

Section Properties.

Variable service : Service.

Lemma tidy_invoke c : tidy (invoke service c).
Proof.
  intros w. eexists. split; [reflexivity|]. unfold invoke. cbn.
  intros c' e [Hin | []]. injection Hin as -> Hr.
  destruct (service (trace w) c'); cbn in Hr; congruence.
Qed.

(** How a per-VM function runs once the manager is set: the handle is
    built from the name argument, the one call is made on it, and the rest
    of the body or the handler takes over. *)
Lemma per_vm_run (c_of : Sandbox -> call)
    (k : forall sb, result_type (c_of sb) -> M string)
    (h : Exception -> string) w m vm_name :
  sandbox_manager w = Some m ->
  let sb := mkSandbox (_api m) vm_name in
  let w1 := record (Constructed sb) w in
  try_except
    (m <- sandbox_manager_attr "_api" ;;
     sandbox <- new_Sandbox (_api m) vm_name ;;
     x <- invoke service (c_of sandbox) ;;
     k sandbox x)
    (fun e => ret (h e)) w
  = match service (trace w1) (c_of sb) with
    | Return a =>
        try_except (k sb a) (fun e => ret (h e)) (record (Invoked (c_of sb) None) w1)
    | Raise e => (Return (h e), record (Invoked (c_of sb) (Some e)) w1)
    end.
Proof.
  intros Hm. cbn zeta.
  unfold try_except at 1, bind, sandbox_manager_attr, new_Sandbox, invoke.
  rewrite Hm. cbn.
  destruct (service (trace w ++ [Constructed _]) (c_of _)); reflexivity.
Qed.

End Properties.

Lemma quiet_ret {A} (a : A) : quiet (ret a).
Proof. by intros w. Qed.

Lemma quiet_bind {A B} (m : M A) (f : A -> M B) :
  quiet m -> (forall a, quiet (f a)) -> quiet (bind m f).
Proof.
  intros Hm Hf w. unfold bind. specialize (Hm w).
  destruct (m w) as [[a | e] w1]; cbn in *; subst w1; [apply Hf | done].
Qed.

Lemma quiet_getitem d key : quiet (getitem d key).
Proof. intros w. unfold getitem. by destruct (d !! key). Qed.

Lemma quiet_list_getitem {A} (l : list A) i : quiet (list_getitem l i).
Proof. intros w. unfold list_getitem. by destruct (l !! i). Qed.

Lemma quiet_try_except {A} (body : M A) (h : Exception -> A) :
  quiet body -> quiet (try_except body (fun e => ret (h e))).
Proof.
  intros Hb w. unfold try_except, ret. specialize (Hb w).
  by destruct (body w) as [[a | e] w1].
Qed.

Lemma snd_try_except_quiet {A} (body : M A) (h : Exception -> A) w :
  quiet body -> snd (try_except body (fun e => ret (h e)) w) = w.
Proof. intros Hb. by apply quiet_try_except. Qed.

Create HintDb quiet.
#[global] Hint Resolve quiet_ret quiet_getitem quiet_list_getitem : quiet.

Ltac quiet_body :=
  repeat first
    [ apply quiet_try_except
    | apply quiet_bind; [|intros ?]
    | solve [auto with quiet]
    | match goal with
      | |- quiet (if ?b then _ else _) => destruct b
      | |- quiet (let _ := _ in _) => cbv zeta
      end ].

Create HintDb tidy.
#[global] Hint Resolve tidy_ret tidy_sandbox_manager_attr tidy_new_Sandbox
  tidy_getitem tidy_list_getitem tidy_invoke : tidy.

(** Walks through the body of a registered function. *)
Ltac tidy_body :=
  repeat first
    [ apply tidy_bind; [|intros ?]
    | apply tidy_mapM; intros ?
    | solve [auto with tidy]
    | apply tidy_invoke
    | match goal with
      | |- tidy (if ?b then _ else _) => destruct b
      | |- tidy (let _ := _ in _) => cbv zeta
      end ].

(** A handler that returns makes the whole [try] return. *)
Lemma try_except_returns {A} (body : M A) (handler : Exception -> A) w :
  exists a, fst (try_except body (fun e => ret (handler e)) w) = Return a.
Proof.
  unfold try_except, ret. destruct (body w) as [[a | e] w']; eauto.
Qed.

(** Around a tidy body, the handler turns the exception of a failed call
    into its string, and the world changes as the body changed it. *)
Lemma try_except_tidy {A} (body : M A) (handler : Exception -> A) :
  tidy body ->
  forall w, exists new,
    snd (try_except body (fun e => ret (handler e)) w)
    = {| sandbox_manager := sandbox_manager w; trace := trace w ++ new |} /\
    forall c e, In (Invoked c (Some e)) new ->
      fst (try_except body (fun e => ret (handler e)) w) = Return (handler e).
Proof.
  intros Hb w. destruct (Hb w) as (new & Hw & Hr). exists new.
  unfold try_except, ret. destruct (body w) as [[a | e] w']; cbn in *.
  - split; [done|]. intros c e Hin. by specialize (Hr c e Hin).
  - split; [done|]. intros c e' Hin. specialize (Hr c e' Hin). congruence.
Qed.

Lemma dispatch_tidy (service : Service) json_dumps op w :
  exists new,
    snd (dispatch service json_dumps op w)
    = {| sandbox_manager := sandbox_manager w; trace := trace w ++ new |} /\
    forall c e, In (Invoked c (Some e)) new ->
      fst (dispatch service json_dumps op w)
      = Return (error_prefix op +:+ exc_str e).
Proof.
  destruct op; cbn [dispatch error_prefix];
    unfold get_vms, get_vm_info, start_sandbox, restore_snapshot, snapshot,
      run_command, upload_file, download_file, destroy_vm, destroy_all_vms,
      update_vm_state;
    apply try_except_tidy with (handler := fun e => _ +:+ exc_str e);
    tidy_body.
Qed.

Lemma new_events_app w new sm :
  new_events w {| sandbox_manager := sm; trace := trace w ++ new |} = new.
Proof. unfold new_events. cbn. apply drop_app_length. Qed.

Lemma new_events_two w ev1 ev2 :
  new_events w (record ev2 (record ev1 w)) = [ev1; ev2].
Proof.
  unfold new_events, record. cbn. rewrite <- app_assoc. apply drop_app_length.
Qed.

Lemma prefix_append (p r : string) : String.prefix p (p +:+ r) = true.
Proof.
  induction p as [|a p IH]; simpl; [by destruct r|].
  destruct (Ascii.ascii_dec a a); [exact IH | congruence].
Qed.

(** ** The manager reference and the per-VM handles *)

(** C8: a registered function leaves the global [sandbox_manager] as it
    found it, and the world after the call is that same global with a longer
    trace: nothing else is kept.  A per-VM function, once the manager is set,
    first constructs a [Sandbox] from the manager's client and its own name
    argument and then makes its one call on exactly that object; this holds
    from every world, so also when an equal handle was built before. *)
Theorem manager_kept_and_handle_rebuilt (service : Service) json_dumps
    (op : operation) (w : World) :
  let w' := snd (dispatch service json_dumps op w) in
  sandbox_manager w' = sandbox_manager w /\
  w' = {| sandbox_manager := sandbox_manager w;
          trace := trace w ++ new_events w w' |} /\
  forall vm_name m,
    vm_name_of op = Some vm_name ->
    sandbox_manager w = Some m ->
    exists c r,
      new_events w w'
        = [Constructed (mkSandbox (_api m) vm_name); Invoked c r] /\
      receiver c = Some (mkSandbox (_api m) vm_name).
Proof.
  cbn zeta.
  destruct (dispatch_tidy service json_dumps op w) as (new & Hw & _).
  split; [by rewrite Hw|]. split; [by rewrite Hw, new_events_app|].
  intros vm_name m Hop Hm. clear new Hw.
  destruct op; try discriminate Hop; injection Hop as ->; cbn [dispatch];
    unfold get_vm_info, snapshot, run_command, upload_file, download_file,
      destroy_vm, update_vm_state;
    match goal with
    | |- context [try_except
                    (bind _ (fun m => bind _ (fun sb =>
                       bind (invoke _ (@?c_of sb)) (@?k sb))))
                    (fun e => ret (@?h e))] =>
        rewrite (per_vm_run service c_of k h w m vm_name Hm)
    end; cbv zeta;
    match goal with
    | |- context [service ?t ?c] =>
        exists c, (raised_of (service t c)); split; [|reflexivity];
        destruct (service t c) as [a | e]; cbn [raised_of snd]
    end;
    try (rewrite snd_try_except_quiet by quiet_body);
    apply new_events_two.
Qed.

Lemma manager_kept_and_handle_rebuilt_witness :
  vm_name_of (Op_destroy_vm "vm1") = Some "vm1" /\
  sandbox_manager started = Some default_manager /\
  exists c r,
    new_events started
      (snd (dispatch demo_service dumps_indent2 (Op_destroy_vm "vm1") started))
      = [Constructed (mkSandbox (_api default_manager) "vm1"); Invoked c r] /\
    receiver c = Some (mkSandbox (_api default_manager) "vm1").
Proof.
  split; [reflexivity|]. split; [reflexivity|].
  exact (proj2 (proj2 (manager_kept_and_handle_rebuilt demo_service dumps_indent2
                         (Op_destroy_vm "vm1") started))
           "vm1" default_manager eq_refl eq_refl).
Defined.

(** Rewrites a per-VM function applied to a world whose manager is set
    (hypothesis [Hm]) by [per_vm_run]. *)
Ltac run_per_vm Hm :=
  match goal with
  | |- context [try_except
                  (bind _ (fun m => bind _ (fun sb =>
                     bind (invoke ?service (@?c_of sb)) (@?k sb))))
                  (fun e => ret (@?h e)) ?w] =>
      rewrite (per_vm_run service c_of k h w _ _ Hm); cbv zeta
  end.

(** ** The functions one by one *)

(** C4: with the manager set and a service that answers the snapshot call
    with [result], [snapshot] returns the success string carrying [result],
    for every id argument, the empty one and ["abc"] alike.  The only call
    made carries the id argument as it was given, so an empty id reaches the
    service empty and the id in the answer is the service's; when the
    service answers with the id it was given, the string ends in that id. *)
Theorem snapshot_forwards_id_and_echoes (service : Service)
    (vm_name snapshot_id result : string) (w : World) (m : SandboxManager) :
  let sb := mkSandbox (_api m) vm_name in
  sandbox_manager w = Some m ->
  service (trace w ++ [Constructed sb]) (SB_snapshot sb snapshot_id)
    = Return result ->
  snapshot service vm_name snapshot_id w
    = (Return ("Created snapshot with ID: " +:+ result),
       record (Invoked (SB_snapshot sb snapshot_id) None)
         (record (Constructed sb) w)) /\
  (result = snapshot_id ->
   fst (snapshot service vm_name snapshot_id w)
     = Return ("Created snapshot with ID: " +:+ snapshot_id)).
Proof.
  intros sb Hm Hcall.
  assert (snapshot service vm_name snapshot_id w
          = (Return ("Created snapshot with ID: " +:+ result),
             record (Invoked (SB_snapshot sb snapshot_id) None)
               (record (Constructed sb) w))) as Hrun.
  { unfold snapshot. run_per_vm Hm. cbn [trace record]. fold sb.
    by rewrite Hcall. }
  split; [exact Hrun|]. intros <-. by rewrite Hrun.
Qed.

Lemma snapshot_forwards_id_and_echoes_witness :
  sandbox_manager started = Some default_manager /\
  demo_service (trace started ++ [Constructed (mkSandbox (_api default_manager) "vm1")])
    (SB_snapshot (mkSandbox (_api default_manager) "vm1") "abc") = Return "abc" /\
  fst (snapshot demo_service "vm1" "abc" started)
    = Return "Created snapshot with ID: abc".
Proof.
  split; [reflexivity|]. split; [reflexivity|].
  exact (proj2 (snapshot_forwards_id_and_echoes demo_service "vm1" "abc" "abc"
                  started default_manager eq_refl eq_refl) eq_refl).
Defined.

(** The empty id reaches the service as the empty string, and the id in the
    answer is the one the service made up. *)
Example snapshot_empty_id :
  snapshot demo_service "vm1" "" started
  = (Return "Created snapshot with ID: snap-0001",
     {| sandbox_manager := Some default_manager;
        trace := [Constructed (mkSandbox (_api default_manager) "vm1");
                  Invoked (SB_snapshot (mkSandbox (_api default_manager) "vm1") "")
                    None] |}).
Proof. reflexivity. Qed.

Lemma append_cons a (s t : string) : String a s +:+ t = String a (s +:+ t).
Proof. reflexivity. Qed.

Lemma append_nil_r (s : string) : s +:+ "" = s.
Proof.
  induction s as [|a s IH]; [reflexivity|]. by rewrite append_cons, IH.
Qed.

Lemma append_assoc (s t u : string) : (s +:+ t) +:+ u = s +:+ t +:+ u.
Proof.
  induction s as [|a s IH]; [reflexivity|]. by rewrite !append_cons, IH.
Qed.

Lemma append_length (s t : string) :
  String.length (s +:+ t) = String.length s + String.length t.
Proof.
  induction s as [|a s IH]; [reflexivity|]. rewrite append_cons. cbn.
  by rewrite IH.
Qed.

Lemma truthy_nonempty (s : string) : truthy s = true <-> s <> "".
Proof. destruct s; cbn; split; congruence. Qed.

(** C5: with the manager set and a service that answers the command with a
    record, [run_command] returns a text that always shows the record's
    [output] after the heading, and that carries the [Error:] part with the
    record's [error] exactly when that [error] is not empty (a missing key
    reads as empty). *)
Theorem run_command_combines_output_and_error (service : Service)
    (vm_name cmd : string) (w : World) (m : SandboxManager)
    (result : gmap string string) :
  let sb := mkSandbox (_api m) vm_name in
  let output := get result "output" "" in
  let error := get result "error" "" in
  sandbox_manager w = Some m ->
  service (trace w ++ [Constructed sb]) (SB_run_cmd sb cmd) = Return result ->
  exists text,
    fst (run_command service vm_name cmd w) = Return text /\
    substring_of output text /\
    (error <> "" <->
     text = "Command output:" +:+ LF +:+ output +:+ LF +:+ LF +:+ "Error:"
            +:+ LF +:+ error) /\
    (error <> "" -> substring_of error text) /\
    (error = "" -> text = "Command output:" +:+ LF +:+ output).
Proof.
  intros sb output error Hm Hcall.
  unfold run_command. run_per_vm Hm. cbn [trace record]. fold sb.
  rewrite Hcall. fold output. fold error.
  unfold try_except, ret.
  destruct (truthy error) eqn:Herr; cbn [fst]; eexists; (split; [reflexivity|]).
  - apply truthy_nonempty in Herr. repeat split; try done.
    + exists ("Command output:" +:+ LF),
        (LF +:+ LF +:+ "Error:" +:+ LF +:+ error).
      by rewrite !append_assoc.
    + intros _. exists ("Command output:" +:+ LF +:+ output +:+ LF +:+ LF
                        +:+ "Error:" +:+ LF), "".
      by rewrite append_nil_r, !append_assoc.
  - assert (error = "") as Hempty.
    { destruct error; [done | discriminate Herr]. }
    repeat split; try done.
    + exists ("Command output:" +:+ LF), "".
      by rewrite append_nil_r.
    + intros Heq. exfalso.
      apply (f_equal String.length) in Heq.
      rewrite !append_length in Heq. cbn in Heq. lia.
Qed.

Lemma run_command_combines_output_and_error_witness :
  sandbox_manager started = Some default_manager /\
  demo_service (trace started ++ [Constructed (mkSandbox (_api default_manager) "vm1")])
    (SB_run_cmd (mkSandbox (_api default_manager) "vm1") "ls /nope")
    = Return (<["error" := "ls: /nope: No such file or directory"]> ∅) /\
  exists text,
    fst (run_command demo_service "vm1" "ls /nope" started) = Return text /\
    substring_of "" text /\
    ("ls: /nope: No such file or directory" <> "" <->
     text = "Command output:" +:+ LF +:+ "" +:+ LF +:+ LF +:+ "Error:" +:+ LF
            +:+ "ls: /nope: No such file or directory") /\
    ("ls: /nope: No such file or directory" <> ""
     -> substring_of "ls: /nope: No such file or directory" text) /\
    ("ls: /nope: No such file or directory" = ""
     -> text = "Command output:" +:+ LF +:+ "").
Proof.
  split; [reflexivity|]. split; [reflexivity|].
  exact (run_command_combines_output_and_error demo_service "vm1" "ls /nope"
           started default_manager
           (<["error" := "ls: /nope: No such file or directory"]> ∅)
           eq_refl eq_refl).
Defined.

Example run_command_without_error :
  fst (run_command demo_service "vm1" "uname" started)
  = Return ("Command output:" +:+ LF +:+ "ok").
Proof. reflexivity. Qed.

(** C6: [update_vm_state] looks at no status value.  With the manager set,
    for every string [status] it makes the one call [update_state(status)]
    with the string as given; what it returns is decided by the service's
    answer alone: the confirmation if the service accepts, the string of the
    handler with the service's message if it raises.  It never raises. *)
Theorem update_vm_state_forwards_any_status (service : Service)
    (vm_name status : string) (w : World) (m : SandboxManager) :
  let sb := mkSandbox (_api m) vm_name in
  let w1 := record (Constructed sb) w in
  let answer := service (trace w1) (SB_update_state sb status) in
  sandbox_manager w = Some m ->
  update_vm_state service vm_name status w
  = (match answer with
     | Return _ =>
         Return ("Successfully updated VM " +:+ vm_name +:+ " state to " +:+ status)
     | Raise e => Return ("Error updating VM state: " +:+ exc_str e)
     end,
     record (Invoked (SB_update_state sb status) (raised_of answer)) w1).
Proof.
  intros sb w1 answer Hm. unfold update_vm_state. run_per_vm Hm.
  fold sb. fold w1. fold answer. by destruct answer.
Qed.

Lemma update_vm_state_forwards_any_status_witness :
  sandbox_manager started = Some default_manager /\
  update_vm_state demo_service "vm1" "running" started
  = (Return "Error updating VM state: 400 Client Error: invalid status running",
     {| sandbox_manager := Some default_manager;
        trace := [Constructed (mkSandbox (_api default_manager) "vm1");
                  Invoked (SB_update_state (mkSandbox (_api default_manager) "vm1")
                             "running")
                    (Some (mkException "HTTPError"
                             "400 Client Error: invalid status running"))] |}).
Proof.
  split; [reflexivity|].
  exact (update_vm_state_forwards_any_status demo_service "vm1" "running"
           started default_manager eq_refl).
Defined.

Example update_vm_state_paused :
  fst (update_vm_state demo_service "vm1" "paused" started)
  = Return "Successfully updated VM vm1 state to paused".
Proof. reflexivity. Qed.

Lemma upload_file_run (service : Service) vm_name path content w m :
  let sb := mkSandbox (_api m) vm_name in
  let w1 := record (Constructed sb) w in
  let file := <["content" := content]> (<["path" := path]> (∅ : gmap string string)) in
  let answer := service (trace w1) (SB_upload_files sb [file]) in
  sandbox_manager w = Some m ->
  upload_file service vm_name path content w
  = (match answer with
     | Return _ => Return ("Successfully uploaded file to " +:+ path)
     | Raise e => Return ("Error uploading file: " +:+ exc_str e)
     end,
     record (Invoked (SB_upload_files sb [file]) (raised_of answer)) w1).
Proof.
  intros sb w1 file answer Hm. unfold upload_file. run_per_vm Hm.
  fold sb. fold w1. fold file. fold answer. by destruct answer.
Qed.

(** C10: with the manager set, [upload_file] makes one call,
    [upload_files], whose argument is a list of exactly one record; that
    record has the two keys [path] and [content], bound to the arguments as
    given.  When the service accepts, the confirmation is the fixed text
    followed by the path: the VM name is not part of it, so an accepted
    upload of the same path to any other VM confirms with the same string. *)
Theorem upload_file_forwards_one_record (service : Service)
    (vm_name path content : string) (w : World) (m : SandboxManager) :
  let sb := mkSandbox (_api m) vm_name in
  let w1 := record (Constructed sb) w in
  let file := <["content" := content]> (<["path" := path]> (∅ : gmap string string)) in
  let answer := service (trace w1) (SB_upload_files sb [file]) in
  sandbox_manager w = Some m ->
  snd (upload_file service vm_name path content w)
    = record (Invoked (SB_upload_files sb [file]) (raised_of answer)) w1 /\
  (file !! "path" = Some path /\ file !! "content" = Some content /\
   forall key, key <> "path" -> key <> "content" -> file !! key = None) /\
  (forall u, answer = Return u ->
     fst (upload_file service vm_name path content w)
       = Return ("Successfully uploaded file to " +:+ path) /\
     forall vm_name' w' m' u',
       sandbox_manager w' = Some m' ->
       service (trace w' ++ [Constructed (mkSandbox (_api m') vm_name')])
         (SB_upload_files (mkSandbox (_api m') vm_name') [file]) = Return u' ->
       fst (upload_file service vm_name' path content w')
         = fst (upload_file service vm_name path content w)).
Proof.
  intros sb w1 file answer Hm.
  pose proof (upload_file_run service vm_name path content w m Hm) as Hrun.
  cbv zeta in Hrun. fold sb w1 file answer in Hrun.
  split; [by rewrite Hrun|]. split.
  - unfold file. split; [|split].
    + by rewrite lookup_insert_ne, lookup_insert_eq.
    + by rewrite lookup_insert_eq.
    + intros key Hp Hc. by rewrite !lookup_insert_ne, lookup_empty.
  - intros u Hu. split; [by rewrite Hrun, Hu|].
    intros vm_name' w' m' u' Hm' Hu'.
    rewrite (upload_file_run service vm_name' path content w' m' Hm').
    cbv zeta. cbn [trace record]. fold file. by rewrite Hu', Hrun, Hu.
Qed.

Lemma upload_file_forwards_one_record_witness :
  sandbox_manager started = Some default_manager /\
  snd (upload_file demo_service "vm1" "/tmp/a.txt" "hello" started)
    = {| sandbox_manager := Some default_manager;
         trace := [Constructed (mkSandbox (_api default_manager) "vm1");
                   Invoked (SB_upload_files (mkSandbox (_api default_manager) "vm1")
                              [ <["content" := "hello"]> (<["path" := "/tmp/a.txt"]> ∅) ])
                     None] |} /\
  fst (upload_file demo_service "vm1" "/tmp/a.txt" "hello" started)
    = Return "Successfully uploaded file to /tmp/a.txt".
Proof.
  split; [reflexivity|].
  pose proof (upload_file_forwards_one_record demo_service "vm1" "/tmp/a.txt"
                "hello" started default_manager eq_refl) as (Hw & _ & Hr).
  split; [exact Hw | exact (proj1 (Hr tt eq_refl))].
Defined.

Lemma download_file_run (service : Service) vm_name path w m :
  let sb := mkSandbox (_api m) vm_name in
  let w1 := record (Constructed sb) w in
  let answer := service (trace w1) (SB_download_files sb [path]) in
  sandbox_manager w = Some m ->
  download_file service vm_name path w
  = (match answer with
     | Return [] => Return ("No file found at path: " +:+ path)
     | Return (file_data :: _) => Return (first_record_report file_data)
     | Raise e => Return ("Error downloading file: " +:+ exc_str e)
     end,
     record (Invoked (SB_download_files sb [path]) (raised_of answer)) w1).
Proof.
  intros sb w1 answer Hm. unfold download_file. run_per_vm Hm.
  fold sb. fold w1. fold answer.
  destruct answer as [[|file_data rest] | e]; cbn [raised_of]; try reflexivity.
  unfold try_except, bind, list_getitem, contains, getitem, ret,
    first_record_report.
  cbn [list_truthy negb lookup list_lookup].
  destruct (file_data !! "error") as [[|a err]|]; reflexivity.
Qed.

(** C9: with the manager set and a non-empty answer, what [download_file]
    returns is computed from the first record alone, whatever follows it in
    the list.  A first record with a non-empty [error] gives the error
    string with that text and no content; a first record without [error]
    (or with an empty one) and without the key [content] gives the heading
    followed by the empty string. *)
Theorem download_file_reads_first_record_only (service : Service)
    (vm_name path : string) (w : World) (m : SandboxManager)
    (file_data : gmap string string) (rest : list (gmap string string)) :
  let sb := mkSandbox (_api m) vm_name in
  sandbox_manager w = Some m ->
  service (trace w ++ [Constructed sb]) (SB_download_files sb [path])
    = Return (file_data :: rest) ->
  fst (download_file service vm_name path w)
    = Return (first_record_report file_data) /\
  (forall (service' : Service) w' m' rest',
     sandbox_manager w' = Some m' ->
     service' (trace w' ++ [Constructed (mkSandbox (_api m') vm_name)])
       (SB_download_files (mkSandbox (_api m') vm_name) [path])
       = Return (file_data :: rest') ->
     fst (download_file service' vm_name path w')
       = fst (download_file service vm_name path w)) /\
  (forall err, file_data !! "error" = Some err -> err <> "" ->
     first_record_report file_data = "Error downloading file: " +:+ err) /\
  (file_data !! "error" = None \/ file_data !! "error" = Some "" ->
   file_data !! "content" = None ->
   first_record_report file_data = "File content:" +:+ LF +:+ "").
Proof.
  intros sb Hm Hcall.
  rewrite (download_file_run service vm_name path w m Hm).
  cbv zeta. cbn [trace record fst]. fold sb. rewrite Hcall.
  split; [reflexivity|]. split.
  { intros service' w' m' rest' Hm' Hcall'.
    rewrite (download_file_run service' vm_name path w' m' Hm').
    cbv zeta. cbn [trace record fst]. by rewrite Hcall'. }
  unfold first_record_report, get. split.
  - intros err -> Hne. by destruct err.
  - intros [-> | ->] ->; reflexivity.
Qed.

Lemma download_file_reads_first_record_only_witness :
  sandbox_manager started = Some default_manager /\
  demo_service (trace started ++ [Constructed (mkSandbox (_api default_manager) "vm1")])
    (SB_download_files (mkSandbox (_api default_manager) "vm1") ["/root/secret"])
    = Return [ <["error" := "permission denied"]> (<["path" := "/root/secret"]> ∅) ] /\
  fst (download_file demo_service "vm1" "/root/secret" started)
    = Return "Error downloading file: permission denied".
Proof.
  split; [reflexivity|]. split; [reflexivity|].
  exact (proj1 (download_file_reads_first_record_only demo_service "vm1"
                  "/root/secret" started default_manager
                  (<["error" := "permission denied"]> (<["path" := "/root/secret"]> ∅))
                  [] eq_refl eq_refl)).
Defined.

(** C3, as the code has it: with the manager set, an empty answer gives the
    message that names the path, and an answer whose first record has no
    error and holds [content] gives the heading [File content:], a line
    feed, and then the content, character for character. *)
Theorem download_file_not_found_or_labelled_content (service : Service)
    (vm_name path : string) (w : World) (m : SandboxManager) :
  let sb := mkSandbox (_api m) vm_name in
  let answer := service (trace w ++ [Constructed sb]) (SB_download_files sb [path]) in
  sandbox_manager w = Some m ->
  (answer = Return [] ->
   fst (download_file service vm_name path w)
     = Return ("No file found at path: " +:+ path)) /\
  (forall file_data rest content,
     answer = Return (file_data :: rest) ->
     file_data !! "error" = None \/ file_data !! "error" = Some "" ->
     file_data !! "content" = Some content ->
     fst (download_file service vm_name path w)
       = Return ("File content:" +:+ LF +:+ content)).
Proof.
  intros sb answer Hm.
  rewrite (download_file_run service vm_name path w m Hm).
  cbv zeta. cbn [trace record fst]. fold sb. fold answer. split.
  - by intros ->.
  - intros file_data rest content -> Herr Hcontent.
    unfold first_record_report, get. rewrite Hcontent.
    by destruct Herr as [-> | ->].
Qed.

Lemma download_file_not_found_or_labelled_content_witness :
  sandbox_manager started = Some default_manager /\
  fst (download_file demo_service "vm1" "/nowhere" started)
    = Return "No file found at path: /nowhere" /\
  fst (download_file demo_service "vm1" "/etc/hostname" started)
    = Return ("File content:" +:+ LF +:+ "vm1").
Proof.
  split; [reflexivity|]. split.
  - exact (proj1 (download_file_not_found_or_labelled_content demo_service
                    "vm1" "/nowhere" started default_manager eq_refl) eq_refl).
  - exact (proj2 (download_file_not_found_or_labelled_content demo_service
                    "vm1" "/etc/hostname" started default_manager eq_refl)
             (<["content" := "vm1"]> (<["path" := "/etc/hostname"]> ∅)) []
             "vm1" eq_refl (or_introl eq_refl) eq_refl).
Defined.

(** C3 as stated fails: the service holds ["vm1"] in [/etc/hostname] and
    answers with one record without an error, yet what [download_file]
    returns is not that content but the content under a heading. *)
Lemma download_file_literal_content_counterexample :
  let sb := mkSandbox (_api default_manager) "vm1" in
  let file_data : gmap string string :=
    <["content" := "vm1"]> (<["path" := "/etc/hostname"]> ∅) in
  sandbox_manager started = Some default_manager /\
  demo_service (trace started ++ [Constructed sb])
    (SB_download_files sb ["/etc/hostname"]) = Return [file_data] /\
  file_data !! "error" = None /\
  file_data !! "content" = Some "vm1" /\
  fst (download_file demo_service "vm1" "/etc/hostname" started)
    = Return ("File content:" +:+ LF +:+ "vm1") /\
  fst (download_file demo_service "vm1" "/etc/hostname" started)
    <> Return "vm1".
Proof.
  cbv zeta. repeat split; try reflexivity. vm_compute. discriminate.
Qed.

(** ** Listing the VMs *)

Lemma mapM_info_calls (service : Service) t vms infos t' :
  info_calls service t vms infos t' ->
  forall sm,
    mapM (fun vm => invoke service (SB_info vm)) vms
      {| sandbox_manager := sm; trace := t |}
    = (Return infos, {| sandbox_manager := sm; trace := t' |}).
Proof.
  induction 1 as [t | t vm vms i infos t' Hi _ IH]; intros sm; [reflexivity|].
  cbn [mapM]. unfold bind at 1. unfold invoke at 1. cbn [trace].
  rewrite Hi. cbn [record raised_of sandbox_manager trace].
  unfold bind at 1, record. cbn [sandbox_manager trace]. by rewrite IH.
Qed.


(** A service whose [info()] answers do not depend on the past answers all
    the calls, one record per VM, in the order of the VMs. *)
Lemma info_calls_map (service : Service) (info_of : Sandbox -> json) vms :
  (forall t vm, In vm vms -> service t (SB_info vm) = Return (info_of vm)) ->
  forall t,
    info_calls service t vms (map info_of vms)
      (t ++ map (fun vm => Invoked (SB_info vm) None) vms).
Proof.
  induction vms as [|vm vms IH]; intros Hinfo t; cbn.
  - rewrite app_nil_r. constructor.
  - constructor; [apply Hinfo; by left|].
    replace (t ++ Invoked (SB_info vm) None
                  :: map (fun vm => Invoked (SB_info vm) None) vms)
      with ((t ++ [Invoked (SB_info vm) None])
              ++ map (fun vm => Invoked (SB_info vm) None) vms)
      by (by rewrite <- app_assoc).
    apply IH. intros t0 vm0 Hin. apply Hinfo. by right.
Qed.



Example get_vms_uninitialised :
  fst (get_vms demo_service dumps_indent2
         {| sandbox_manager := None; trace := [] |})
  = Return "Error listing VMs: 'NoneType' object has no attribute 'list_all'".
Proof. reflexivity. Qed.

(** * Further properties of the adapter *)

(** ** Before the manager is set *)

(** X1: while [sandbox_manager] is still [None], every registered function
    fails on its first attribute access: it contacts nothing, constructs
    nothing, leaves the world as it is and returns its error label followed
    by the [AttributeError] message that names the attribute it wanted. *)
Theorem unset_manager_contacts_nothing (service : Service) json_dumps
    (op : operation) (w : World) :
  sandbox_manager w = None ->
  dispatch service json_dumps op w
  = (Return (error_prefix op +:+ "'NoneType' object has no attribute '"
             +:+ first_attr op +:+ "'"),
     w).
Proof.
  intros Hnone.
  destruct op; cbn [dispatch error_prefix first_attr];
    unfold get_vms, get_vm_info, start_sandbox, restore_snapshot, snapshot,
      run_command, upload_file, download_file, destroy_vm, destroy_all_vms,
      update_vm_state, try_except, bind at 1, sandbox_manager_attr;
    rewrite Hnone; reflexivity.
Qed.

Lemma unset_manager_contacts_nothing_witness :
  sandbox_manager {| sandbox_manager := None; trace := [] |} = None /\
  dispatch demo_service dumps_indent2 (Op_destroy_vm "vm1")
    {| sandbox_manager := None; trace := [] |}
  = (Return "Error destroying VM: 'NoneType' object has no attribute '_api'",
     {| sandbox_manager := None; trace := [] |}).
Proof.
  split; [reflexivity|].
  exact (unset_manager_contacts_nothing demo_service dumps_indent2
           (Op_destroy_vm "vm1") {| sandbox_manager := None; trace := [] |}
           eq_refl).
Defined.

(** ** Nothing happens after a failure *)

Lemma stops_ret {A} (a : A) : stops_at_failure (ret a).
Proof.
  intros w. exists []. split; [by rewrite world_eta | left; constructor].
Qed.

Lemma stops_bind {A B} (m : M A) (f : A -> M B) :
  stops_at_failure m -> (forall a, stops_at_failure (f a)) ->
  stops_at_failure (bind m f).
Proof.
  intros Hm Hf w. unfold bind.
  destruct (Hm w) as (new1 & Hw1 & Hs1).
  destruct (m w) as [[a | e] w1]; cbn in *; subst w1.
  - destruct Hs1 as [Hall1 | (pre & c & e & _ & _ & Habs)]; [|discriminate].
    destruct (Hf a {| sandbox_manager := sandbox_manager w;
                      trace := trace w ++ new1 |}) as (new2 & Hw2 & Hs2).
    cbn in *. exists (new1 ++ new2). split; [by rewrite Hw2, app_assoc|].
    destruct Hs2 as [Hall2 | (pre & c & e & -> & Hpre & Hr)].
    + left. by apply Forall_app.
    + right. exists (new1 ++ pre), c, e.
      split; [by rewrite app_assoc|]. split; [by apply Forall_app | done].
  - exists new1. split; [reflexivity|].
    destruct Hs1 as [Hall1 | (pre & c & e0 & -> & Hpre & Hr)]; [by left|].
    right. exists pre, c, e0. repeat split; try done. congruence.
Qed.

Lemma stops_sandbox_manager_attr attr :
  stops_at_failure (sandbox_manager_attr attr).
Proof.
  intros w. exists []. unfold sandbox_manager_attr. rewrite world_eta.
  destruct (sandbox_manager w); cbn; (split; [reflexivity | left; constructor]).
Qed.

Lemma stops_new_Sandbox api vm_name : stops_at_failure (new_Sandbox api vm_name).
Proof.
  intros w. eexists. split; [reflexivity|]. left. by repeat constructor.
Qed.

Lemma stops_getitem d key : stops_at_failure (getitem d key).
Proof.
  intros w. exists []. unfold getitem. rewrite world_eta.
  destruct (d !! key); cbn; (split; [reflexivity | left; constructor]).
Qed.

Lemma stops_list_getitem {A} (l : list A) i : stops_at_failure (list_getitem l i).
Proof.
  intros w. exists []. unfold list_getitem. rewrite world_eta.
  destruct (l !! i); cbn; (split; [reflexivity | left; constructor]).
Qed.

Lemma stops_invoke (service : Service) c : stops_at_failure (invoke service c).
Proof.
  intros w. eexists. split; [reflexivity|]. unfold invoke. cbn.
  destruct (service (trace w) c) as [a | e]; cbn.
  - left. by repeat constructor.
  - right. exists [], c, e. repeat split. constructor.
Qed.

Lemma stops_mapM {A B} (f : A -> M B) (l : list A) :
  (forall a, stops_at_failure (f a)) -> stops_at_failure (mapM f l).
Proof.
  intros Hf. induction l as [|x l IH]; cbn.
  - apply stops_ret.
  - apply stops_bind; [apply Hf|]. intros y.
    apply stops_bind; [apply IH|]. intros ys. apply stops_ret.
Qed.

Ltac stops_body :=
  repeat first
    [ apply stops_bind; [|intros ?]
    | apply stops_mapM; intros ?
    | apply stops_ret
    | apply stops_sandbox_manager_attr
    | apply stops_new_Sandbox
    | apply stops_getitem
    | apply stops_list_getitem
    | apply stops_invoke
    | match goal with
      | |- stops_at_failure (if ?b then _ else _) => destruct b
      | |- stops_at_failure (let _ := _ in _) => cbv zeta
      end ].

Lemma try_except_stops {A} (body : M A) (handler : Exception -> A) :
  stops_at_failure body ->
  forall w, exists new,
    snd (try_except body (fun e => ret (handler e)) w)
    = {| sandbox_manager := sandbox_manager w; trace := trace w ++ new |} /\
    (Forall succeeded new \/
     exists pre c e,
       new = pre ++ [Invoked c (Some e)] /\ Forall succeeded pre /\
       fst (try_except body (fun e => ret (handler e)) w) = Return (handler e)).
Proof.
  intros Hb w. destruct (Hb w) as (new & Hw & Hs). exists new.
  unfold try_except, ret. destruct (body w) as [[a | e] w']; cbn in *.
  - split; [done|]. destruct Hs as [Hall | (pre & c & e & _ & _ & Habs)];
      [by left | discriminate].
  - split; [done|]. destruct Hs as [Hall | (pre & c & e0 & -> & Hpre & Hr)];
      [by left|].
    right. exists pre, c, e0. repeat split; try done. congruence.
Qed.

(** X2: no registered function goes on after a call raised, and none tries
    again: either no call of the run raised, or exactly one did, it is the
    last event of the run, and the function returns its error label with the
    message of that exception. *)
Theorem failed_call_ends_the_run (service : Service) json_dumps
    (op : operation) (w : World) :
  let new := new_events w (snd (dispatch service json_dumps op w)) in
  Forall succeeded new \/
  exists pre c e,
    new = pre ++ [Invoked c (Some e)] /\ Forall succeeded pre /\
    fst (dispatch service json_dumps op w)
      = Return (error_prefix op +:+ exc_str e).
Proof.
  cbv zeta.
  assert (exists new,
    snd (dispatch service json_dumps op w)
    = {| sandbox_manager := sandbox_manager w; trace := trace w ++ new |} /\
    (Forall succeeded new \/
     exists pre c e,
       new = pre ++ [Invoked c (Some e)] /\ Forall succeeded pre /\
       fst (dispatch service json_dumps op w)
         = Return (error_prefix op +:+ exc_str e))) as (new & Hw & Hs).
  { destruct op; cbn [dispatch error_prefix];
      unfold get_vms, get_vm_info, start_sandbox, restore_snapshot, snapshot,
        run_command, upload_file, download_file, destroy_vm, destroy_all_vms,
        update_vm_state;
      apply try_except_stops with (handler := fun e => _ +:+ exc_str e);
      stops_body. }
  by rewrite Hw, new_events_app.
Qed.

(** ** Starting and restoring *)

(** X3: with the manager set, [start_sandbox] asks the manager to start the
    VM and, if that succeeds, asks the handle the manager returned (not one
    built from the name) for its info and returns it serialized; it builds no
    handle of its own.  If the start raises, only that call was made.  If
    the start succeeds and the info call raises, the function still answers
    with its [Error starting sandbox] string, although the trace shows that
    the start itself went through. *)
Theorem start_sandbox_asks_returned_handle (service : Service) json_dumps
    (name : string) (w : World) (m : SandboxManager) :
  let start := SM_start_sandbox m name in
  let w1 := record (Invoked start None) w in
  sandbox_manager w = Some m ->
  start_sandbox service json_dumps name w
  = match service (trace w) start with
    | Raise e =>
        (Return ("Error starting sandbox: " +:+ exc_str e),
         record (Invoked start (Some e)) w)
    | Return sandbox =>
        match service (trace w1) (SB_info sandbox) with
        | Return i =>
            (Return (json_dumps i), record (Invoked (SB_info sandbox) None) w1)
        | Raise e =>
            (Return ("Error starting sandbox: " +:+ exc_str e),
             record (Invoked (SB_info sandbox) (Some e)) w1)
        end
    end.
Proof.
  intros start w1 Hm.
  unfold start_sandbox, try_except, bind at 1, sandbox_manager_attr.
  rewrite Hm. unfold bind at 1, invoke at 1. fold start.
  destruct (service (trace w) start) as [sandbox | e]; [|reflexivity].
  cbn [raised_of]. fold w1. unfold bind, invoke, ret.
  by destruct (service (trace w1) (SB_info sandbox)).
Qed.

Lemma start_sandbox_asks_returned_handle_witness :
  sandbox_manager started = Some default_manager /\
  start_sandbox mute_service dumps_indent2 "vm9" started
  = (Return "Error starting sandbox: 500 Server Error",
     {| sandbox_manager := Some default_manager;
        trace := [Invoked (SM_start_sandbox default_manager "vm9") None;
                  Invoked (SB_info (mkSandbox (_api default_manager) "vm9"))
                    (Some (mkException "HTTPError" "500 Server Error"))] |}).
Proof.
  split; [reflexivity|].
  exact (start_sandbox_asks_returned_handle mute_service dumps_indent2 "vm9"
           started default_manager eq_refl).
Defined.

(** X4: with the manager set, [restore_snapshot] calls
    [restore(vm_name, snapshot_id)] on the manager with both arguments as
    given and in that order, then asks the returned handle for its info; as
    for [start_sandbox], a failing info call after a successful restore is
    reported under [Error restoring snapshot]. *)
Theorem restore_snapshot_asks_returned_handle (service : Service) json_dumps
    (vm_name snapshot_id : string) (w : World) (m : SandboxManager) :
  let restore := SM_restore m vm_name snapshot_id in
  let w1 := record (Invoked restore None) w in
  sandbox_manager w = Some m ->
  restore_snapshot service json_dumps vm_name snapshot_id w
  = match service (trace w) restore with
    | Raise e =>
        (Return ("Error restoring snapshot: " +:+ exc_str e),
         record (Invoked restore (Some e)) w)
    | Return sandbox =>
        match service (trace w1) (SB_info sandbox) with
        | Return i =>
            (Return (json_dumps i), record (Invoked (SB_info sandbox) None) w1)
        | Raise e =>
            (Return ("Error restoring snapshot: " +:+ exc_str e),
             record (Invoked (SB_info sandbox) (Some e)) w1)
        end
    end.
Proof.
  intros restore w1 Hm.
  unfold restore_snapshot, try_except, bind at 1, sandbox_manager_attr.
  rewrite Hm. unfold bind at 1, invoke at 1. fold restore.
  destruct (service (trace w) restore) as [sandbox | e]; [|reflexivity].
  cbn [raised_of]. fold w1. unfold bind, invoke, ret.
  by destruct (service (trace w1) (SB_info sandbox)).
Qed.

Lemma restore_snapshot_asks_returned_handle_witness :
  sandbox_manager started = Some default_manager /\
  restore_snapshot demo_service dumps_indent2 "vm2" "snap-7" started
  = (Return (dumps_indent2
               (JObj [("name", JStr "vm2"); ("status", JStr "RUNNING")])),
     {| sandbox_manager := Some default_manager;
        trace := [Invoked (SM_restore default_manager "vm2" "snap-7") None;
                  Invoked (SB_info (mkSandbox (_api default_manager) "vm2")) None] |}).
Proof.
  split; [reflexivity|].
  exact (restore_snapshot_asks_returned_handle demo_service dumps_indent2
           "vm2" "snap-7" started default_manager eq_refl).
Defined.

(** ** Destroying *)

(** X5: with the manager set, [destroy_all_vms] is one call,
    [destroy_all()] on the manager itself: it lists nothing, builds no
    handle and destroys no VM one by one; the service's answer to that call
    decides between the fixed confirmation and the error string. *)
Theorem destroy_all_vms_is_one_manager_call (service : Service)
    (w : World) (m : SandboxManager) :
  let answer := service (trace w) (SM_destroy_all m) in
  sandbox_manager w = Some m ->
  destroy_all_vms service w
  = (match answer with
     | Return _ => Return "Successfully destroyed all VMs"
     | Raise e => Return ("Error destroying VMs: " +:+ exc_str e)
     end,
     record (Invoked (SM_destroy_all m) (raised_of answer)) w).
Proof.
  intros answer Hm.
  unfold destroy_all_vms, try_except, bind at 1, sandbox_manager_attr.
  rewrite Hm. unfold bind, invoke, ret. fold answer. by destruct answer.
Qed.

Lemma destroy_all_vms_is_one_manager_call_witness :
  sandbox_manager started = Some default_manager /\
  destroy_all_vms unreachable started
  = (Return "Error destroying VMs: connection refused",
     {| sandbox_manager := Some default_manager;
        trace := [Invoked (SM_destroy_all default_manager)
                    (Some ConnectionError)] |}).
Proof.
  split; [reflexivity|].
  exact (destroy_all_vms_is_one_manager_call unreachable started
           default_manager eq_refl).
Defined.

(** ** What each per-VM function sends *)

(** X6: with the manager set, a per-VM function does two things and no
    more: it constructs the handle from the manager's client and its name
    argument, and it makes the one method call of [per_vm_call] on it, with
    its remaining arguments passed on unchanged ([download_file] and
    [upload_file] wrap theirs in a list of one). *)
Theorem per_vm_function_sends_its_arguments (service : Service) json_dumps
    (op : operation) (w : World) (m : SandboxManager) (vm_name : string) :
  let sb := mkSandbox (_api m) vm_name in
  vm_name_of op = Some vm_name ->
  sandbox_manager w = Some m ->
  exists c,
    per_vm_call op sb = Some c /\
    new_events w (snd (dispatch service json_dumps op w))
    = [Constructed sb;
       Invoked c (raised_of (service (trace w ++ [Constructed sb]) c))].
Proof.
  intros sb Hop Hm.
  destruct op; try discriminate Hop; injection Hop as ->;
    cbn [dispatch per_vm_call]; (eexists; split; [reflexivity|]);
    unfold get_vm_info, snapshot, run_command, upload_file, download_file,
      destroy_vm, update_vm_state;
    run_per_vm Hm; fold sb; cbn [trace record];
    match goal with
    | |- context [service ?t ?c] => destruct (service t c) as [a | e]
    end;
    cbn [raised_of snd];
    try (rewrite snd_try_except_quiet by quiet_body);
    apply new_events_two.
Qed.

Lemma per_vm_function_sends_its_arguments_witness :
  vm_name_of (Op_download_file "vm1" "/etc/hostname") = Some "vm1" /\
  sandbox_manager started = Some default_manager /\
  exists c,
    per_vm_call (Op_download_file "vm1" "/etc/hostname")
      (mkSandbox (_api default_manager) "vm1") = Some c /\
    new_events started
      (snd (dispatch demo_service dumps_indent2
              (Op_download_file "vm1" "/etc/hostname") started))
    = [Constructed (mkSandbox (_api default_manager) "vm1");
       Invoked c
         (raised_of (demo_service
                       (trace started ++ [Constructed (mkSandbox (_api default_manager) "vm1")])
                       c))].
Proof.
  split; [reflexivity|]. split; [reflexivity|].
  exact (per_vm_function_sends_its_arguments demo_service dumps_indent2
           (Op_download_file "vm1" "/etc/hostname") started default_manager
           "vm1" eq_refl eq_refl).
Defined.

(** ** Telling failure from success *)

(** A per-VM function whose body ends in [return f"..."] right after its
    call. *)
Lemma per_vm_ret_run (service : Service) (c_of : Sandbox -> call)
    (ok : forall sb, result_type (c_of sb) -> string)
    (h : Exception -> string) w m vm_name :
  let sb := mkSandbox (_api m) vm_name in
  let w1 := record (Constructed sb) w in
  let answer := service (trace w1) (c_of sb) in
  sandbox_manager w = Some m ->
  try_except
    (m <- sandbox_manager_attr "_api" ;;
     sandbox <- new_Sandbox (_api m) vm_name ;;
     x <- invoke service (c_of sandbox) ;;
     ret (ok sandbox x))
    (fun e => ret (h e)) w
  = (match answer with
     | Return a => Return (ok sb a)
     | Raise e => Return (h e)
     end,
     record (Invoked (c_of sb) (raised_of answer)) w1).
Proof.
  intros sb w1 answer Hm.
  rewrite (per_vm_run service c_of (fun sb x => ret (ok sb x)) h w m vm_name Hm).
  cbv zeta. fold sb. fold w1. fold answer. by destruct answer.
Qed.

Ltac run_per_vm_ret Hm :=
  match goal with
  | |- context [try_except
                  (bind _ (fun m => bind _ (fun sb =>
                     bind (invoke ?service (@?c_of sb))
                          (fun x => ret (@?ok sb x)))))
                  (fun e => ret (@?h e)) ?w] =>
      rewrite (per_vm_ret_run service c_of ok h w _ _ Hm); cbv zeta
  end.

Lemma run_command_run (service : Service) vm_name cmd w m :
  let sb := mkSandbox (_api m) vm_name in
  let w1 := record (Constructed sb) w in
  let answer := service (trace w1) (SB_run_cmd sb cmd) in
  sandbox_manager w = Some m ->
  run_command service vm_name cmd w
  = (match answer with
     | Return result =>
         Return (if truthy (get result "error" "")
                 then "Command output:" +:+ LF +:+ get result "output" ""
                      +:+ LF +:+ LF +:+ "Error:" +:+ LF +:+ get result "error" ""
                 else "Command output:" +:+ LF +:+ get result "output" "")
     | Raise e => Return ("Error running command: " +:+ exc_str e)
     end,
     record (Invoked (SB_run_cmd sb cmd) (raised_of answer)) w1).
Proof.
  intros sb w1 answer Hm. unfold run_command. run_per_vm Hm.
  fold sb. fold w1. fold answer.
  destruct answer as [result | e]; [|reflexivity].
  unfold try_except, ret. cbn [raised_of].
  by destruct (truthy (get result "error" "")).
Qed.

Lemma destroy_all_vms_run (service : Service) w m :
  let answer := service (trace w) (SM_destroy_all m) in
  sandbox_manager w = Some m ->
  destroy_all_vms service w
  = (match answer with
     | Return _ => Return "Successfully destroyed all VMs"
     | Raise e => Return ("Error destroying VMs: " +:+ exc_str e)
     end,
     record (Invoked (SM_destroy_all m) (raised_of answer)) w).
Proof.
  intros answer Hm.
  unfold destroy_all_vms, try_except, bind at 1, sandbox_manager_attr.
  rewrite Hm. unfold bind, invoke, ret. fold answer. by destruct answer.
Qed.

Lemma new_events_one w ev : new_events w (record ev w) = [ev].
Proof. unfold new_events, record. cbn. apply drop_app_length. Qed.

(** The word [Error] in front of the answer of one call. *)
Lemma error_word_of_answer {R} (answer : outcome R) (ok : R -> string)
    (h : Exception -> string) (c : call) (before : list event) (s : string) :
  (forall a, String.prefix "Error" (ok a) = false) ->
  (forall e, String.prefix "Error" (h e) = true) ->
  Forall succeeded before ->
  match answer with Return a => Return (ok a) | Raise e => Return (h e) end
    = Return s ->
  (String.prefix "Error" s = true <->
   exists c' e, In (Invoked c' (Some e))
                   (before ++ [Invoked c (raised_of answer)])).
Proof.
  intros Hok Hh Hbefore Hs. destruct answer as [a | e]; injection Hs as <-.
  - rewrite Hok. split; [discriminate|]. intros (c' & e & Hin).
    apply in_app_or in Hin as [Hin | [Hin | []]]; [|discriminate Hin].
    destruct (proj1 (List.Forall_forall _ _) Hbefore _ Hin).
  - rewrite Hh. split; [|done]. intros _. exists c, e.
    apply in_or_app. right. by left.
Qed.

(** X7: for the functions that answer with a fixed text of their own
    ([snapshot], [run_command], [upload_file], [destroy_vm],
    [destroy_all_vms], [update_vm_state]) and with the manager set, the
    returned string begins with [Error] exactly when the call to the service
    raised: a caller can tell failure from success by that word. *)
Theorem error_word_marks_failed_call (service : Service) json_dumps
    (op : operation) (w : World) (m : SandboxManager) (s : string) :
  fixed_success_text op = true ->
  sandbox_manager w = Some m ->
  fst (dispatch service json_dumps op w) = Return s ->
  (String.prefix "Error" s = true <->
   exists c e,
     In (Invoked c (Some e))
        (new_events w (snd (dispatch service json_dumps op w)))).
Proof.
  intros Hop Hm.
  destruct op; try discriminate Hop; clear Hop; cbn [dispatch];
    [ unfold snapshot; run_per_vm_ret Hm
    | rewrite (run_command_run service _ _ w m Hm); cbv zeta
    | unfold upload_file; run_per_vm_ret Hm
    | unfold destroy_vm; run_per_vm_ret Hm
    | rewrite (destroy_all_vms_run service w m Hm); cbv zeta
    | unfold update_vm_state; run_per_vm_ret Hm ];
    cbn [fst snd]; rewrite ?new_events_two, ?new_events_one; intros Hs.
  all: first
    [ refine (error_word_of_answer _ _ _ _ [Constructed _] s _ _ _ Hs);
      [| |by repeat constructor]
    | refine (error_word_of_answer _ _ _ _ [] s _ _ _ Hs); [| |constructor] ].
  all: try (intros ?; reflexivity).
  intros result. by destruct (truthy (get result "error" "")).
Qed.

Lemma error_word_marks_failed_call_witness :
  fixed_success_text (Op_update_vm_state "vm1" "running") = true /\
  sandbox_manager started = Some default_manager /\
  fst (dispatch demo_service dumps_indent2 (Op_update_vm_state "vm1" "running") started)
    = Return "Error updating VM state: 400 Client Error: invalid status running" /\
  (String.prefix "Error"
     "Error updating VM state: 400 Client Error: invalid status running" = true <->
   exists c e,
     In (Invoked c (Some e))
        (new_events started
           (snd (dispatch demo_service dumps_indent2
                   (Op_update_vm_state "vm1" "running") started)))).
Proof.
  split; [reflexivity|]. split; [reflexivity|]. split; [reflexivity|].
  exact (error_word_marks_failed_call demo_service dumps_indent2
           (Op_update_vm_state "vm1" "running") started default_manager
           "Error updating VM state: 400 Client Error: invalid status running"
           eq_refl eq_refl eq_refl).
Defined.

(** ** The list and the single VM *)

Lemma get_vms_run (service : Service) json_dumps w m vms infos t' :
  sandbox_manager w = Some m ->
  service (trace w) (SM_list_all m) = Return vms ->
  info_calls service (trace w ++ [Invoked (SM_list_all m) None]) vms infos t' ->
  get_vms service json_dumps w
  = (Return (json_dumps (JArr infos)),
     {| sandbox_manager := Some m; trace := t' |}).
Proof.
  intros Hm Hlist Hinfos.
  unfold get_vms, try_except, bind at 1, sandbox_manager_attr.
  rewrite Hm. unfold bind at 1, invoke at 1. rewrite Hlist.
  cbn [raised_of]. unfold bind at 1, record. rewrite Hm. cbn [trace].
  by rewrite (mapM_info_calls service _ vms infos t' Hinfos (Some m)).
Qed.

Lemma get_vm_info_run (service : Service) json_dumps vm_name w m :
  let sb := mkSandbox (_api m) vm_name in
  let w1 := record (Constructed sb) w in
  let answer := service (trace w1) (SB_info sb) in
  sandbox_manager w = Some m ->
  get_vm_info service json_dumps vm_name w
  = (match answer with
     | Return i => Return (json_dumps i)
     | Raise e => Return ("Error retrieving VM information: " +:+ exc_str e)
     end,
     record (Invoked (SB_info sb) (raised_of answer)) w1).
Proof.
  intros sb w1 answer Hm. unfold get_vm_info. by run_per_vm_ret Hm.
Qed.

(** X8: the two resources agree.  With the manager set, a service whose
    [info()] answers do not depend on the past, and a [list_all()] that
    hands out handles of the manager's own client, the array [get_vms]
    returns holds, VM by VM and in order, the very record that
    [get_vm_info] serializes when asked for that VM by name. *)
Theorem get_vms_agrees_with_get_vm_info (service : Service) json_dumps
    (w : World) (m : SandboxManager) (vms : list Sandbox)
    (info_of : Sandbox -> json) :
  sandbox_manager w = Some m ->
  service (trace w) (SM_list_all m) = Return vms ->
  (forall t sb, service t (SB_info sb) = Return (info_of sb)) ->
  Forall (fun vm => sb_api vm = _api m) vms ->
  fst (get_vms service json_dumps w)
    = Return (json_dumps (JArr (map info_of vms))) /\
  Forall (fun vm =>
            forall w', sandbox_manager w' = Some m ->
              fst (get_vm_info service json_dumps (name vm) w')
                = Return (json_dumps (info_of vm))) vms.
Proof.
  intros Hm Hlist Hinfo Hapi. split.
  - by rewrite (get_vms_run service json_dumps w m vms (map info_of vms) _ Hm Hlist
                  (info_calls_map service info_of vms (fun t vm _ => Hinfo t vm) _)).
  - eapply Forall_impl; [exact Hapi|]. intros [api vm_name] Heq w' Hm'.
    cbn in Heq. subst api. cbn [name].
    rewrite (get_vm_info_run service json_dumps vm_name w' m Hm').
    cbv zeta. cbn [fst name]. by rewrite Hinfo.
Qed.

Lemma get_vms_agrees_with_get_vm_info_witness :
  sandbox_manager started = Some default_manager /\
  fst (get_vms demo_service dumps_indent2 started)
    = Return (dumps_indent2
                (JArr [JObj [("name", JStr "vm1"); ("status", JStr "RUNNING")];
                       JObj [("name", JStr "vm2"); ("status", JStr "RUNNING")]])) /\
  fst (get_vm_info demo_service dumps_indent2 "vm2" started)
    = Return (dumps_indent2
                (JObj [("name", JStr "vm2"); ("status", JStr "RUNNING")])).
Proof.
  pose proof (get_vms_agrees_with_get_vm_info demo_service dumps_indent2
                started default_manager
                [mkSandbox (_api default_manager) "vm1";
                 mkSandbox (_api default_manager) "vm2"]
                (fun sb => JObj [("name", JStr (name sb)); ("status", JStr "RUNNING")])
                eq_refl eq_refl (fun _ _ => eq_refl)
                ltac:(repeat constructor))
    as [Hlist Hone].
  split; [reflexivity|]. split; [exact Hlist|].
  exact (Forall_inv (Forall_inv_tail Hone) started eq_refl).
Defined.

(** ** What the returned text cannot tell *)

(** X9: the text of [run_command] does not say where the output ends.  A
    command whose output itself ends in a blank line, [Error:] and some
    text, with no error reported, gives the same string as a command with
    the shorter output and that text reported as its error. *)
Theorem run_command_text_is_ambiguous (service1 service2 : Service)
    (vm_name cmd output error : string) (w : World) (m : SandboxManager)
    (result1 result2 : gmap string string) :
  let sb := mkSandbox (_api m) vm_name in
  sandbox_manager w = Some m ->
  service1 (trace w ++ [Constructed sb]) (SB_run_cmd sb cmd) = Return result1 ->
  service2 (trace w ++ [Constructed sb]) (SB_run_cmd sb cmd) = Return result2 ->
  error <> "" ->
  result1 !! "output" = Some (output +:+ LF +:+ LF +:+ "Error:" +:+ LF +:+ error) ->
  result1 !! "error" = None ->
  result2 !! "output" = Some output ->
  result2 !! "error" = Some error ->
  fst (run_command service1 vm_name cmd w)
    = fst (run_command service2 vm_name cmd w).
Proof.
  intros sb Hm H1 H2 Herr Ho1 He1 Ho2 He2.
  rewrite !(run_command_run _ vm_name cmd w m Hm). cbv zeta.
  cbn [trace record fst]. fold sb. rewrite H1, H2. unfold get.
  rewrite Ho1, He1, Ho2, He2. cbn [truthy].
  apply truthy_nonempty in Herr. by rewrite Herr.
Qed.

Lemma run_command_text_is_ambiguous_witness :
  sandbox_manager started = Some default_manager /\
  "boom" <> "" /\
  fst (run_command echo_service "vm1" "run" started)
    = fst (run_command failing_service "vm1" "run" started).
Proof.
  split; [reflexivity|]. split; [discriminate|].
  exact (run_command_text_is_ambiguous echo_service failing_service
           "vm1" "run" "ok" "boom" started default_manager
           (<["output" := "ok" +:+ LF +:+ LF +:+ "Error:" +:+ LF +:+ "boom"]> ∅)
           (<["error" := "boom"]> (<["output" := "ok"]> ∅))
           eq_refl eq_refl eq_refl ltac:(discriminate)
           eq_refl eq_refl eq_refl eq_refl).
Defined.

(** X10: [download_file] reports two different failures with one string:
    a first record that carries a non-empty [error] gives exactly what a
    failed call gives whose exception has that text as its message, so the
    answer does not tell an error of the file from an error of the call. *)
Theorem download_file_error_is_ambiguous (service1 service2 : Service)
    (vm_name path message : string) (w : World) (m : SandboxManager)
    (file_data : gmap string string) (rest : list (gmap string string))
    (e : Exception) :
  let sb := mkSandbox (_api m) vm_name in
  sandbox_manager w = Some m ->
  service1 (trace w ++ [Constructed sb]) (SB_download_files sb [path])
    = Return (file_data :: rest) ->
  file_data !! "error" = Some message ->
  message <> "" ->
  service2 (trace w ++ [Constructed sb]) (SB_download_files sb [path]) = Raise e ->
  exc_str e = message ->
  fst (download_file service1 vm_name path w)
    = Return ("Error downloading file: " +:+ message) /\
  fst (download_file service2 vm_name path w)
    = fst (download_file service1 vm_name path w).
Proof.
  intros sb Hm H1 Herr Hne H2 Hmsg.
  rewrite !(download_file_run _ vm_name path w m Hm). cbv zeta.
  cbn [trace record fst]. fold sb. rewrite H1, H2.
  unfold first_record_report. rewrite Herr, Hmsg.
  by destruct message.
Qed.

Lemma download_file_error_is_ambiguous_witness :
  sandbox_manager started = Some default_manager /\
  "permission denied" <> "" /\
  fst (download_file demo_service "vm1" "/root/secret" started)
    = Return "Error downloading file: permission denied" /\
  fst (download_file failing_service "vm1" "/root/secret" started)
    = fst (download_file demo_service "vm1" "/root/secret" started).
Proof.
  split; [reflexivity|]. split; [discriminate|].
  exact (download_file_error_is_ambiguous demo_service failing_service
           "vm1" "/root/secret" "permission denied" started default_manager
           (<["error" := "permission denied"]> (<["path" := "/root/secret"]> ∅)) []
           (mkException "HTTPError" "permission denied")
           eq_refl eq_refl eq_refl ltac:(discriminate) eq_refl eq_refl).
Defined.

(** ** Sessions *)

Lemma dispatch_stops (service : Service) json_dumps op w :
  exists new,
    snd (dispatch service json_dumps op w)
    = {| sandbox_manager := sandbox_manager w; trace := trace w ++ new |} /\
    (Forall succeeded new \/
     exists pre c e,
       new = pre ++ [Invoked c (Some e)] /\ Forall succeeded pre /\
       fst (dispatch service json_dumps op w)
         = Return (error_prefix op +:+ exc_str e)).
Proof.
  destruct op; cbn [dispatch error_prefix];
    unfold get_vms, get_vm_info, start_sandbox, restore_snapshot, snapshot,
      run_command, upload_file, download_file, destroy_vm, destroy_all_vms,
      update_vm_state;
    apply try_except_stops with (handler := fun e => _ +:+ exc_str e);
    stops_body.
Qed.

Lemma try_except_returns_dispatch (service : Service) json_dumps op w :
  exists s : string, fst (dispatch service json_dumps op w) = Return s.
Proof.
  destruct op; cbn [dispatch];
    unfold get_vms, get_vm_info, start_sandbox, restore_snapshot, snapshot,
      run_command, upload_file, download_file, destroy_vm, destroy_all_vms,
      update_vm_state;
    apply try_except_returns with (handler := fun e => _ +:+ exc_str e).
Qed.

Lemma succeeded_not_failed (l : list event) :
  Forall succeeded l -> List.filter failed l = [].
Proof.
  induction 1 as [|ev l Hev _ IH]; [reflexivity|]. cbn.
  destruct ev as [sb | c [e|]]; cbn in *; [exact IH | contradiction | exact IH].
Qed.

Lemma at_most_one_failed (service : Service) json_dumps op w :
  exists new,
    snd (dispatch service json_dumps op w)
    = {| sandbox_manager := sandbox_manager w; trace := trace w ++ new |} /\
    length (List.filter failed new) <= 1.
Proof.
  destruct (dispatch_stops service json_dumps op w) as (new & Hw & Hs).
  exists new. split; [exact Hw|].
  destruct Hs as [Hall | (pre & c & e & -> & Hpre & _)].
  - rewrite (succeeded_not_failed _ Hall). cbn. lia.
  - rewrite List.filter_app, (succeeded_not_failed _ Hpre). cbn. lia.
Qed.

(** X11: a session of any length.  However many requests the protocol layer
    sends and whatever the service does, every request gets a string back,
    the global [sandbox_manager] at the end is the one at the start, the
    trace only grew, and the calls that raised are at most as many as the
    requests: no request hides a second attempt. *)
Theorem session_answers_every_request (service : Service) json_dumps
    (requests : list operation) (w : World) :
  let responses := fst (serve service json_dumps requests w) in
  let w' := snd (serve service json_dumps requests w) in
  Forall2 (fun (_ : operation) response => exists s : string, response = Return s)
    requests responses /\
  sandbox_manager w' = sandbox_manager w /\
  exists new,
    trace w' = trace w ++ new /\
    length (List.filter failed new) <= length requests.
Proof.
  cbv zeta. revert w.
  induction requests as [|op rest IH]; intros w; cbn [serve].
  - split; [constructor|]. split; [reflexivity|].
    exists []. split; [by rewrite app_nil_r | cbn; lia].
  - destruct (at_most_one_failed service json_dumps op w) as (new1 & Hw1 & Hn1).
    destruct (try_except_returns_dispatch service json_dumps op w) as [s Hs].
    destruct (dispatch service json_dumps op w) as [response w1].
    cbn [fst snd] in *. subst response w1.
    specialize (IH {| sandbox_manager := sandbox_manager w;
                      trace := trace w ++ new1 |}).
    destruct (serve service json_dumps rest _) as [responses w2].
    cbn [fst snd sandbox_manager trace] in *.
    destruct IH as (Hall & Hsm & new2 & Ht & Hn2).
    split; [constructor; eauto|]. split; [exact Hsm|].
    exists (new1 ++ new2). split; [by rewrite Ht, app_assoc|].
    rewrite List.filter_app, length_app. cbn [length]. lia.
Qed.

(** ** No memory of earlier calls *)

Lemma same_ret {A} (a : A) : same_answer (ret a).
Proof. by intros w1 w2 Hsm. Qed.

Lemma same_bind {A B} (m : M A) (f : A -> M B) :
  same_answer m -> (forall a, same_answer (f a)) -> same_answer (bind m f).
Proof.
  intros Hm Hf w1 w2 Hsm. unfold bind.
  destruct (Hm w1 w2 Hsm) as [Hr Hsm'].
  destruct (m w1) as [[a1 | e1] w1'], (m w2) as [[a2 | e2] w2'];
    cbn in *; try discriminate Hr.
  - injection Hr as ->. by apply Hf.
  - injection Hr as ->. by split.
Qed.

Lemma same_sandbox_manager_attr attr : same_answer (sandbox_manager_attr attr).
Proof.
  intros w1 w2 Hsm. unfold sandbox_manager_attr. rewrite Hsm.
  destruct (sandbox_manager w2) eqn:Hw2; cbn; (split; [reflexivity | congruence]).
Qed.

Lemma same_new_Sandbox api vm_name : same_answer (new_Sandbox api vm_name).
Proof. by intros w1 w2 Hsm. Qed.

Lemma same_getitem d key : same_answer (getitem d key).
Proof. intros w1 w2 Hsm. unfold getitem. by destruct (d !! key). Qed.

Lemma same_list_getitem {A} (l : list A) i : same_answer (list_getitem l i).
Proof. intros w1 w2 Hsm. unfold list_getitem. by destruct (l !! i). Qed.

Lemma same_invoke (service : Service) c :
  history_free service -> same_answer (invoke service c).
Proof.
  intros Hfree w1 w2 Hsm. unfold invoke. cbn.
  by rewrite (Hfree (trace w1) (trace w2) c).
Qed.

Lemma same_mapM {A B} (f : A -> M B) (l : list A) :
  (forall a, same_answer (f a)) -> same_answer (mapM f l).
Proof.
  intros Hf. induction l as [|x l IH]; cbn.
  - apply same_ret.
  - apply same_bind; [apply Hf|]. intros y.
    apply same_bind; [apply IH|]. intros ys. apply same_ret.
Qed.

Lemma same_try_except {A} (body : M A) (handler : Exception -> M A) :
  same_answer body -> (forall e, same_answer (handler e)) ->
  same_answer (try_except body handler).
Proof.
  intros Hb Hh w1 w2 Hsm. unfold try_except.
  destruct (Hb w1 w2 Hsm) as [Hr Hsm'].
  destruct (body w1) as [[a1 | e1] w1'], (body w2) as [[a2 | e2] w2'];
    cbn in *; try discriminate Hr.
  - by split.
  - injection Hr as ->. by apply Hh.
Qed.

Ltac same_body Hfree :=
  repeat first
    [ apply same_try_except; [|intros ?]
    | apply same_bind; [|intros ?]
    | apply same_mapM; intros ?
    | apply same_ret
    | apply same_sandbox_manager_attr
    | apply same_new_Sandbox
    | apply same_getitem
    | apply same_list_getitem
    | match goal with
      | |- same_answer (invoke ?s ?c) => exact (same_invoke s c Hfree)
      end
    | match goal with
      | |- same_answer (if ?b then _ else _) => destruct b
      | |- same_answer (let _ := _ in _) => cbv zeta
      end ].

(** X12: the adapter keeps nothing from one call to the next.  Against a
    service whose answers do not depend on the past, a registered function
    returns the same string from any two worlds that hold the same manager,
    whatever was constructed or called before: no handle, connection or
    earlier answer is reused. *)
Theorem answer_ignores_the_past (service : Service) json_dumps
    (op : operation) (w1 w2 : World) :
  history_free service ->
  sandbox_manager w1 = sandbox_manager w2 ->
  fst (dispatch service json_dumps op w1)
    = fst (dispatch service json_dumps op w2).
Proof.
  intros Hfree Hsm.
  enough (same_answer (dispatch service json_dumps op)) as Hsame
    by exact (proj1 (Hsame w1 w2 Hsm)).
  destruct op; cbn [dispatch];
    unfold get_vms, get_vm_info, start_sandbox, restore_snapshot, snapshot,
      run_command, upload_file, download_file, destroy_vm, destroy_all_vms,
      update_vm_state;
    same_body Hfree.
Qed.

Lemma answer_ignores_the_past_witness :
  history_free demo_service /\
  sandbox_manager started
    = sandbox_manager (snd (serve demo_service dumps_indent2
                              [Op_destroy_vm "vm1"; Op_get_vms] started)) /\
  fst (dispatch demo_service dumps_indent2 (Op_get_vm_info "vm1") started)
    = fst (dispatch demo_service dumps_indent2 (Op_get_vm_info "vm1")
             (snd (serve demo_service dumps_indent2
                     [Op_destroy_vm "vm1"; Op_get_vms] started))).
Proof.
  split; [intros t t' c; reflexivity|]. split; [reflexivity|].
  exact (answer_ignores_the_past demo_service dumps_indent2
           (Op_get_vm_info "vm1") started
           (snd (serve demo_service dumps_indent2
                   [Op_destroy_vm "vm1"; Op_get_vms] started))
           (fun t t' c => eq_refl) eq_refl).
Defined.

(** ** One client for everything *)

Lemma uses_ret m {A} (a : A) : uses_manager m (ret a).
Proof.
  intros w Hm. exists []. split; [|constructor].
  cbn. rewrite app_nil_r. destruct w; cbn in *. by subst.
Qed.

Lemma uses_bind m {A B} (comp : M A) (f : A -> M B) :
  uses_manager m comp -> (forall a, uses_manager m (f a)) ->
  uses_manager m (bind comp f).
Proof.
  intros Hc Hf w Hm. unfold bind.
  destruct (Hc w Hm) as (new1 & Hw1 & Hall1).
  destruct (comp w) as [[a | e] w1]; cbn in *; subst w1.
  - destruct (Hf a {| sandbox_manager := Some m; trace := trace w ++ new1 |} eq_refl)
      as (new2 & Hw2 & Hall2).
    cbn in *. exists (new1 ++ new2). split; [by rewrite Hw2, app_assoc|].
    by apply Forall_app.
  - by exists new1.
Qed.

(** After [sandbox_manager.<attr>] the body goes on with the manager. *)
Lemma uses_attr_bind m {B} attr (f : SandboxManager -> M B) :
  uses_manager m (f m) -> uses_manager m (bind (sandbox_manager_attr attr) f).
Proof.
  intros Hf w Hm. unfold bind, sandbox_manager_attr. rewrite Hm.
  exact (Hf w Hm).
Qed.

Lemma uses_new_Sandbox m vm_name : uses_manager m (new_Sandbox (_api m) vm_name).
Proof.
  intros w Hm. eexists. unfold new_Sandbox, record. rewrite Hm.
  split; [reflexivity|]. by repeat constructor.
Qed.

Lemma uses_getitem m d key : uses_manager m (getitem d key).
Proof.
  intros w Hm. exists []. unfold getitem. split; [|constructor].
  rewrite app_nil_r. destruct w; cbn in *; subst. by destruct (d !! key).
Qed.

Lemma uses_list_getitem m {A} (l : list A) i : uses_manager m (list_getitem l i).
Proof.
  intros w Hm. exists []. unfold list_getitem. split; [|constructor].
  rewrite app_nil_r. destruct w; cbn in *; subst. by destruct (l !! i).
Qed.

Lemma uses_invoke m (service : Service) c :
  (forall r, made_with m (Invoked c r)) -> uses_manager m (invoke service c).
Proof.
  intros Hc w Hm. eexists. unfold invoke, record. rewrite Hm.
  split; [reflexivity|]. repeat constructor. apply Hc.
Qed.

Lemma uses_mapM m {A B} (f : A -> M B) (l : list A) :
  (forall a, uses_manager m (f a)) -> uses_manager m (mapM f l).
Proof.
  intros Hf. induction l as [|x l IH]; cbn.
  - apply uses_ret.
  - apply uses_bind; [apply Hf|]. intros y.
    apply uses_bind; [apply IH|]. intros ys. apply uses_ret.
Qed.

Lemma uses_try_except m {A} (body : M A) (handler : Exception -> A) :
  uses_manager m body ->
  uses_manager m (try_except body (fun e => ret (handler e))).
Proof.
  intros Hb w Hm. destruct (Hb w Hm) as (new & Hw & Hall). exists new.
  unfold try_except, ret. by destruct (body w) as [[a | e] w'].
Qed.

Ltac uses_body :=
  repeat first
    [ apply uses_try_except
    | apply uses_attr_bind
    | apply uses_bind; [|intros ?]
    | apply uses_mapM; intros ?
    | apply uses_ret
    | apply uses_new_Sandbox
    | apply uses_getitem
    | apply uses_list_getitem
    | match goal with
      | |- uses_manager ?m (invoke ?s ?c) =>
          apply (uses_invoke m s c); intros ?; first [exact I | reflexivity]
      end
    | match goal with
      | |- uses_manager _ (if ?b then _ else _) => destruct b
      | |- uses_manager _ (let _ := _ in _) => cbv zeta
      end ].

Lemma dispatch_uses_manager (service : Service) json_dumps op m :
  uses_manager m (dispatch service json_dumps op).
Proof.
  destruct op; cbn [dispatch];
    unfold get_vms, get_vm_info, start_sandbox, restore_snapshot, snapshot,
      run_command, upload_file, download_file, destroy_vm, destroy_all_vms,
      update_vm_state;
    uses_body.
Qed.

(** X13: one client for everything.  With the manager set, every handle a
    registered function constructs holds the manager's own API client, and
    every manager method it calls is called on that manager: the adapter
    never builds a second client and never addresses another manager. *)
Theorem only_the_manager_client_is_used (service : Service) json_dumps
    (op : operation) (w : World) (m : SandboxManager) :
  sandbox_manager w = Some m ->
  Forall (made_with m)
    (new_events w (snd (dispatch service json_dumps op w))).
Proof.
  intros Hm.
  destruct (dispatch_uses_manager service json_dumps op m w Hm) as (new & Hw & Hall).
  by rewrite Hw, new_events_app.
Qed.

Lemma only_the_manager_client_is_used_witness :
  sandbox_manager started = Some default_manager /\
  Forall (made_with default_manager)
    (new_events started
       (snd (dispatch demo_service dumps_indent2 (Op_run_command "vm1" "ls") started))).
Proof.
  split; [reflexivity|].
  exact (only_the_manager_client_is_used demo_service dumps_indent2
           (Op_run_command "vm1" "ls") started default_manager eq_refl).
Defined.

(** ** The order of the calls of [get_vms] *)

Lemma mapM_info_order (service : Service) (vms : list Sandbox) :
  forall w r w',
    mapM (fun vm => invoke service (SB_info vm)) vms w = (r, w') ->
    exists new k,
      w' = {| sandbox_manager := sandbox_manager w; trace := trace w ++ new |} /\
      k <= length vms /\
      map called new = map (fun vm => Some (SB_info vm)) (take k vms) /\
      (forall infos, r = Return infos -> k = length vms).
Proof.
  induction vms as [|vm vms IH]; intros w r w' Hrun.
  - injection Hrun as <- <-. exists [], 0. cbn. rewrite app_nil_r.
    by destruct w.
  - cbn [mapM] in Hrun. unfold bind at 1, invoke at 1 in Hrun.
    destruct (service (trace w) (SB_info vm)) as [i | e]; cbn [raised_of] in Hrun.
    + unfold bind at 1 in Hrun.
      destruct (mapM (fun vm => invoke service (SB_info vm)) vms
                  (record (Invoked (SB_info vm) None) w))
        as [r2 w2] eqn:Hrest.
      destruct (IH _ _ _ Hrest) as (new & k & -> & Hk & Hcalls & Hall).
      exists (Invoked (SB_info vm) None :: new), (S k).
      destruct r2 as [infos | e]; injection Hrun as <- <-; cbn;
        rewrite <- app_assoc; (split; [reflexivity|]); (split; [lia|]);
        (split; [by rewrite Hcalls|]).
      * intros infos' _. by rewrite (Hall infos eq_refl).
      * intros infos' Habs. discriminate Habs.
    + injection Hrun as <- <-. exists [Invoked (SB_info vm) (Some e)], 1. cbn.
      split; [reflexivity|]. split; [lia|]. split; [by rewrite take_0|].
      intros infos' Habs. discriminate Habs.
Qed.

(** X14: with the manager set and [list_all()] answering [vms], [get_vms]
    calls [list_all()] once and then [info()] on the VMs of [vms], first to
    last, each at most once and none out of turn; it gets through all of
    them unless it returns its error string. *)
Theorem get_vms_asks_in_order (service : Service) json_dumps
    (w : World) (m : SandboxManager) (vms : list Sandbox) :
  sandbox_manager w = Some m ->
  service (trace w) (SM_list_all m) = Return vms ->
  exists k,
    k <= length vms /\
    map called (new_events w (snd (get_vms service json_dumps w)))
    = Some (SM_list_all m) :: map (fun vm => Some (SB_info vm)) (take k vms) /\
    (k = length vms \/
     exists e, fst (get_vms service json_dumps w)
               = Return ("Error listing VMs: " +:+ exc_str e)).
Proof.
  intros Hm Hlist.
  assert (exists new k r,
            get_vms service json_dumps w
            = (r, {| sandbox_manager := sandbox_manager w;
                     trace := trace w ++ Invoked (SM_list_all m) None :: new |}) /\
            k <= length vms /\
            map called new = map (fun vm => Some (SB_info vm)) (take k vms) /\
            (k = length vms \/
             exists e, r = Return ("Error listing VMs: " +:+ exc_str e)))
    as (new & k & r & Hrun & Hk & Hcalls & Hend).
  { unfold get_vms, try_except, bind at 1, sandbox_manager_attr.
    rewrite Hm. unfold bind at 1, invoke at 1. rewrite Hlist. cbn [raised_of].
    unfold bind at 1.
    destruct (mapM (fun vm => invoke service (SB_info vm)) vms
                (record (Invoked (SM_list_all m) None) w))
      as [r2 w2] eqn:Hrest.
    destruct (mapM_info_order service vms _ _ _ Hrest)
      as (new & k & -> & Hk & Hcalls & Hall).
    exists new, k. cbn [trace record sandbox_manager]. rewrite <- app_assoc.
    cbn [app]. rewrite ?Hm.
    destruct r2 as [infos | e]; unfold ret; eexists;
      (split; [reflexivity|]); (split; [exact Hk|]); (split; [exact Hcalls|]).
    - left. by apply (Hall infos).
    - right. by exists e. }
  exists k. rewrite Hrun. cbn [fst snd]. rewrite new_events_app. cbn [map called].
  split; [exact Hk|]. split; [by rewrite Hcalls | exact Hend].
Qed.

Lemma get_vms_asks_in_order_witness :
  sandbox_manager started = Some default_manager /\
  mute_service (trace started) (SM_list_all default_manager)
    = Return [mkSandbox (_api default_manager) "vm1";
              mkSandbox (_api default_manager) "vm2"] /\
  exists k,
    k <= 2 /\
    map called (new_events started (snd (get_vms mute_service dumps_indent2 started)))
    = Some (SM_list_all default_manager)
        :: map (fun vm => Some (SB_info vm))
             (take k [mkSandbox (_api default_manager) "vm1";
                      mkSandbox (_api default_manager) "vm2"]) /\
    (k = 2 \/
     exists e, fst (get_vms mute_service dumps_indent2 started)
               = Return ("Error listing VMs: " +:+ exc_str e)).
Proof.
  split; [reflexivity|]. split; [reflexivity|].
  exact (get_vms_asks_in_order mute_service dumps_indent2 started
           default_manager
           [mkSandbox (_api default_manager) "vm1";
            mkSandbox (_api default_manager) "vm2"] eq_refl eq_refl).
Defined.

(** With the service mute on [info()], the first VM is asked and the second
    never is. *)
Example get_vms_stops_at_first_vm :
  new_events started (snd (get_vms mute_service dumps_indent2 started))
  = [Invoked (SM_list_all default_manager) None;
     Invoked (SB_info (mkSandbox (_api default_manager) "vm1"))
       (Some (mkException "HTTPError" "500 Server Error"))].
Proof. reflexivity. Qed.

(** ** Fault handling *)

Lemma dispatch_unset (service : Service) json_dumps op w :
  sandbox_manager w = None ->
  fst (dispatch service json_dumps op w)
  = Return (error_prefix op +:+ "'NoneType' object has no attribute '"
            +:+ first_attr op +:+ "'").
Proof.
  intros Hnone.
  destruct op; cbn [dispatch error_prefix first_attr];
    unfold get_vms, get_vm_info, start_sandbox, restore_snapshot, snapshot,
      run_command, upload_file, download_file, destroy_vm, destroy_all_vms,
      update_vm_state, try_except, bind at 1, sandbox_manager_attr;
    rewrite Hnone; reflexivity.
Qed.

(** The first call raises: the handler answers, whatever the function. *)
Lemma dispatch_first_call_raises (service : Service) json_dumps op w m e :
  sandbox_manager w = Some m ->
  service (trace_at_first_call op m w) (first_call op m) = Raise e ->
  fst (dispatch service json_dumps op w)
  = Return (error_prefix op +:+ exc_str e).
Proof.
  intros Hm Hcall.
  destruct op;
    cbn [dispatch first_call trace_at_first_call vm_name_of error_prefix] in *;
    unfold get_vms, get_vm_info, start_sandbox, restore_snapshot, snapshot,
      run_command, upload_file, download_file, destroy_vm, destroy_all_vms,
      update_vm_state;
    first
      [ run_per_vm Hm; cbn [trace record]; by rewrite Hcall
      | unfold try_except, bind at 1, sandbox_manager_attr; rewrite Hm;
        unfold bind at 1, invoke at 1; by rewrite Hcall ].
Qed.

Lemma start_sandbox_info_raises (service : Service) json_dumps name w m sandbox e :
  sandbox_manager w = Some m ->
  service (trace w) (SM_start_sandbox m name) = Return sandbox ->
  service (trace w ++ [Invoked (SM_start_sandbox m name) None]) (SB_info sandbox)
    = Raise e ->
  fst (start_sandbox service json_dumps name w)
  = Return ("Error starting sandbox: " +:+ exc_str e).
Proof.
  intros Hm Hstart Hinfo.
  unfold start_sandbox, try_except, bind at 1, sandbox_manager_attr.
  rewrite Hm. unfold bind at 1, invoke at 1. rewrite Hstart.
  cbn [raised_of]. unfold bind, invoke, ret. cbn [trace record].
  by rewrite Hinfo.
Qed.

Lemma restore_snapshot_info_raises (service : Service) json_dumps
    vm_name snapshot_id w m sandbox e :
  sandbox_manager w = Some m ->
  service (trace w) (SM_restore m vm_name snapshot_id) = Return sandbox ->
  service (trace w ++ [Invoked (SM_restore m vm_name snapshot_id) None])
    (SB_info sandbox) = Raise e ->
  fst (restore_snapshot service json_dumps vm_name snapshot_id w)
  = Return ("Error restoring snapshot: " +:+ exc_str e).
Proof.
  intros Hm Hrestore Hinfo.
  unfold restore_snapshot, try_except, bind at 1, sandbox_manager_attr.
  rewrite Hm. unfold bind at 1, invoke at 1. rewrite Hrestore.
  cbn [raised_of]. unfold bind, invoke, ret. cbn [trace record].
  by rewrite Hinfo.
Qed.

(** The comprehension stops at the VM whose [info()] raises. *)
Lemma mapM_info_raises (service : Service) t answered infos t1 vm e :
  info_calls service t answered infos t1 ->
  service t1 (SB_info vm) = Raise e ->
  forall rest sm,
    mapM (fun vm => invoke service (SB_info vm)) (answered ++ vm :: rest)
      {| sandbox_manager := sm; trace := t |}
    = (Raise e,
       {| sandbox_manager := sm;
          trace := t1 ++ [Invoked (SB_info vm) (Some e)] |}).
Proof.
  induction 1 as [t | t vm0 vms i infos t' Hi _ IH]; intros Hraise rest sm.
  - cbn [app mapM]. unfold bind at 1, invoke at 1. cbn [trace].
    by rewrite Hraise.
  - cbn [app mapM]. unfold bind at 1, invoke at 1. cbn [trace].
    rewrite Hi. cbn [raised_of]. unfold bind at 1, record.
    cbn [sandbox_manager trace]. by rewrite (IH Hraise rest sm).
Qed.

Lemma get_vms_info_raises (service : Service) json_dumps w m vms k vm infos t1 e :
  sandbox_manager w = Some m ->
  service (trace w) (SM_list_all m) = Return vms ->
  vms !! k = Some vm ->
  info_calls service (trace w ++ [Invoked (SM_list_all m) None])
    (take k vms) infos t1 ->
  service t1 (SB_info vm) = Raise e ->
  fst (get_vms service json_dumps w)
  = Return ("Error listing VMs: " +:+ exc_str e).
Proof.
  intros Hm Hlist Hk Hinfos Hraise.
  unfold get_vms, try_except, bind at 1, sandbox_manager_attr.
  rewrite Hm. unfold bind at 1, invoke at 1. rewrite Hlist.
  cbn [raised_of]. unfold bind at 1, record. rewrite Hm. cbn [trace].
  rewrite <- (take_drop_middle vms k vm Hk) at 1.
  by rewrite (mapM_info_raises service _ _ infos t1 vm e Hinfos Hraise
                (drop (S k) vms) (Some m)).
Qed.

(** C1: whatever the service does and whether or not the manager was set,
    each of the eleven registered functions returns a string and lets no
    exception out.  The string describes what was caught: when the first
    call the function makes raises [e], and more generally when any call of
    its run raised [e], it is the function's error label followed by
    [str(e)]; when the manager is not set it is that label followed by the
    [AttributeError] text of the attribute access that failed. *)
Theorem dispatch_never_raises (service : Service) json_dumps
    (op : operation) (w : World) :
  exists s : string,
    fst (dispatch service json_dumps op w) = Return s /\
    (forall m e,
       sandbox_manager w = Some m ->
       service (trace_at_first_call op m w) (first_call op m) = Raise e ->
       s = error_prefix op +:+ exc_str e) /\
    (forall c e,
       In (Invoked c (Some e))
          (new_events w (snd (dispatch service json_dumps op w))) ->
       s = error_prefix op +:+ exc_str e) /\
    (sandbox_manager w = None ->
     s = error_prefix op +:+ "'NoneType' object has no attribute '"
         +:+ first_attr op +:+ "'").
Proof.
  destruct (try_except_returns_dispatch service json_dumps op w) as [s Hs].
  exists s. split; [exact Hs|]. split; [|split].
  - intros m e Hm Hcall.
    pose proof (dispatch_first_call_raises service json_dumps op w m e Hm Hcall)
      as Hrun.
    congruence.
  - intros c e Hin.
    destruct (dispatch_tidy service json_dumps op w) as (new & Hw & Hr).
    rewrite Hw, new_events_app in Hin. specialize (Hr c e Hin). congruence.
  - intros Hnone.
    pose proof (dispatch_unset service json_dumps op w Hnone) as Hrun.
    congruence.
Qed.

Lemma dispatch_never_raises_witness :
  sandbox_manager started = Some default_manager /\
  unreachable (trace_at_first_call (Op_run_command "vm1" "ls") default_manager started)
    (first_call (Op_run_command "vm1" "ls") default_manager)
    = Raise ConnectionError /\
  fst (dispatch unreachable dumps_indent2 (Op_run_command "vm1" "ls") started)
    = Return "Error running command: connection refused".
Proof.
  split; [reflexivity|]. split; [reflexivity|].
  destruct (dispatch_never_raises unreachable dumps_indent2
              (Op_run_command "vm1" "ls") started)
    as (s & Hs & Hfirst & _).
  rewrite Hs. f_equal.
  exact (Hfirst default_manager ConnectionError eq_refl eq_refl).
Defined.

(** C2: with the manager set, a registered function whose call into the
    service fails with [e] returns its own error label followed by
    [str(e)], so the string begins with that label.  This holds when the
    first call it makes raises; when a later one does ([info()] after a
    successful start or restore, [info()] on any VM of the list); hence for
    whichever call of the run raised; and in particular when the service is
    down and raises on every call. *)
Theorem failed_call_gives_prefixed_message (service : Service) json_dumps
    (op : operation) (w : World) (m : SandboxManager) (e : Exception) :
  let answer := fst (dispatch service json_dumps op w) in
  let message := error_prefix op +:+ exc_str e in
  sandbox_manager w = Some m ->
  (service (trace_at_first_call op m w) (first_call op m) = Raise e ->
   answer = Return message) /\
  (forall name sandbox,
     op = Op_start_sandbox name ->
     service (trace w) (SM_start_sandbox m name) = Return sandbox ->
     service (trace w ++ [Invoked (SM_start_sandbox m name) None])
       (SB_info sandbox) = Raise e ->
     answer = Return message) /\
  (forall vm_name snapshot_id sandbox,
     op = Op_restore_snapshot vm_name snapshot_id ->
     service (trace w) (SM_restore m vm_name snapshot_id) = Return sandbox ->
     service (trace w ++ [Invoked (SM_restore m vm_name snapshot_id) None])
       (SB_info sandbox) = Raise e ->
     answer = Return message) /\
  (forall vms k vm infos t1,
     op = Op_get_vms ->
     service (trace w) (SM_list_all m) = Return vms ->
     vms !! k = Some vm ->
     info_calls service (trace w ++ [Invoked (SM_list_all m) None])
       (take k vms) infos t1 ->
     service t1 (SB_info vm) = Raise e ->
     answer = Return message) /\
  (forall c,
     In (Invoked c (Some e))
        (new_events w (snd (dispatch service json_dumps op w))) ->
     answer = Return message) /\
  ((forall t c, service t c = Raise e) -> answer = Return message) /\
  String.prefix (error_prefix op) message = true.
Proof.
  intros answer message Hm. unfold answer, message.
  split; [by apply dispatch_first_call_raises|].
  split; [intros name sandbox ->; by apply start_sandbox_info_raises|].
  split; [intros vm_name snapshot_id sandbox ->;
          by apply restore_snapshot_info_raises|].
  split; [intros vms k vm infos t1 ->; by apply get_vms_info_raises|].
  split.
  - intros c Hin.
    destruct (dispatch_tidy service json_dumps op w) as (new & Hw & Hr).
    rewrite Hw, new_events_app in Hin. by apply (Hr c).
  - split; [|apply prefix_append].
    intros Hdown. by apply (dispatch_first_call_raises _ _ _ _ m).
Qed.

Lemma failed_call_gives_prefixed_message_witness :
  sandbox_manager started = Some default_manager /\
  (forall t c, unreachable t c = Raise ConnectionError) /\
  fst (dispatch unreachable dumps_indent2 Op_get_vms started)
    = Return "Error listing VMs: connection refused" /\
  fst (dispatch mute_service dumps_indent2 Op_get_vms started)
    = Return "Error listing VMs: 500 Server Error".
Proof.
  split; [reflexivity|]. split; [intros t c; reflexivity|]. split.
  - exact (proj1 (proj2 (proj2 (proj2 (proj2 (proj2
             (failed_call_gives_prefixed_message unreachable dumps_indent2
                Op_get_vms started default_manager ConnectionError eq_refl))))))
             (fun t c => eq_refl)).
  - exact (proj1 (proj2 (proj2 (proj2
             (failed_call_gives_prefixed_message mute_service dumps_indent2
                Op_get_vms started default_manager
                (mkException "HTTPError" "500 Server Error") eq_refl))))
             [mkSandbox (_api default_manager) "vm1";
              mkSandbox (_api default_manager) "vm2"]
             0 (mkSandbox (_api default_manager) "vm1") []
             (trace started ++ [Invoked (SM_list_all default_manager) None])
             eq_refl eq_refl eq_refl (info_calls_nil _ _) eq_refl).
Defined.
